(** * Horology AI watch analyst: workflow and collection consistency

    A shallow embedding of the logic of [src/App.tsx] (collection store,
    image intake, best-cover reordering, navigation) and of
    [src/services/geminiService.ts] (post-processing of the valuation
    response), followed by the properties of the specification that refer
    to them.

    Layout:
    - [Js]         : the run-time values the untyped parts of the code handle;
    - [Migration]  : the load-time migration of the persisted collection;
    - [Gemini]     : [getMarketValuation];
    - [App]        : the component state and its handlers;
    - [Mount]      : the effect that loads the collection;
    - [Vision]     : [identifyWatchFromImage];
    - [Render]     : the blocks the component shows;
    - [ReportView] : file names and lists of the certificate;
    - [EventLoop]  : the handlers and the answers of pending calls as
                     events, and the worlds they reach. *)

From Stdlib Require Import ZArith NArith String Ascii DecimalString.
From Stdlib Require Import Floats.SpecFloat.
From stdpp Require Import base option list relations.

(* ================================================================== *)
(** ** Run-time values *)
(* ================================================================== *)

Module Js.

(** A JS string is a sequence of UTF-16 code units. *)
Definition code_unit := N.
Definition jstring := list code_unit.

(** The JS string written by an ASCII literal. *)
Definition js (s : string) : jstring :=
  (λ a, N_of_ascii a) <$> list_ascii_of_string s.

(** A JS number is an IEEE-754 binary64 value. *)
Definition number := spec_float.

(** The number denoted by an integer literal. *)
Definition num (z : Z) : number := binary_normalize 53 1024 z 0 false.

(** What [JSON.parse] can return, plus [undefined].  [VObj] lists the own
    enumerable properties of an object in the order the engine enumerates
    them (keys are pairwise distinct). *)
#[warnings="-register-all"]
Inductive value :=
| VUndefined
| VNull
| VBool (b : bool)
| VNum (x : number)
| VStr (s : jstring)
| VArr (elems : list value)
| VObj (props : list (jstring * value)).

Definition props_t := list (jstring * value).

(** ToBoolean. *)
Definition truthy (v : value) : bool :=
  match v with
  | VUndefined | VNull => false
  | VBool b => b
  | VNum (S754_zero _) | VNum S754_nan => false
  | VNum _ => true
  | VStr [] => false
  | VStr _ => true
  | VArr _ | VObj _ => true
  end.

(** [a || b] where evaluating [b] has no effect. *)
Definition or_else (a b : value) : value := if truthy a then a else b.

(** Own property [k] of a property list. *)
Fixpoint lookup_prop (k : jstring) (ps : props_t) : option value :=
  match ps with
  | [] => None
  | (k', v) :: ps => if decide (k = k') then Some v else lookup_prop k ps
  end.

(** [o[k] = v] on an object under construction, for a key [k] that is not
    an array index: an existing property keeps its place and takes the new
    value, a new one goes last. *)
Fixpoint define (k : jstring) (v : value) (ps : props_t) : props_t :=
  match ps with
  | [] => [(k, v)]
  | (k', v') :: ps =>
      if decide (k = k') then (k, v) :: ps else (k', v') :: define k v ps
  end.

(** The key of array index [i]. *)
Definition index_key (i : nat) : jstring :=
  js (NilEmpty.string_of_uint (Nat.to_uint i)).

(** The properties that the spread [{...v}] copies into a fresh object:
    nothing for [undefined], [null], booleans and numbers, the indexed code
    units of a string, the indexed elements of an array, the own
    properties of an object. *)
Definition own_props (v : value) : props_t :=
  match v with
  | VUndefined | VNull | VBool _ | VNum _ => []
  | VStr s => imap (λ i c, (index_key i, VStr [c])) s
  | VArr l => imap (λ i x, (index_key i, x)) l
  | VObj ps => ps
  end.

(** The member read [v.k], for a name [k] that is neither an array index
    nor ["length"] nor a member of a built-in prototype (every name the
    modelled code reads is such).  [None] is the [TypeError] that reading a
    property of [undefined] or [null] throws; an absent property reads
    [VUndefined]. *)
Definition member (v : value) (k : jstring) : option value :=
  match v with
  | VUndefined | VNull => None
  | VObj ps => Some (default VUndefined (lookup_prop k ps))
  | VBool _ | VNum _ | VStr _ | VArr _ => Some VUndefined
  end.

End Js.

Import Js.

(* ================================================================== *)
(** ** Load-time migration ([App.tsx], the mount effect) *)
(* ================================================================== *)

Module Migration.

Definition k_imageUrls := js "imageUrls".
Definition k_imageUrl := js "imageUrl".
Definition k_marketData := js "marketData".
Definition k_pros := js "pros".
Definition k_cons := js "cons".
Definition k_currency := js "currency".
Definition k_priceSource := js "priceSource".

(** The callback of [parsedData.map]:
<<
  (item: any) => ({
    ...item,
    imageUrls: item.imageUrls || (item.imageUrl ? [item.imageUrl] : []),
    marketData: {
      ...item.marketData,
      pros: item.marketData.pros || [],
      cons: item.marketData.cons || [],
      currency: item.marketData.currency || 'HKD',
      priceSource: item.marketData.priceSource || 'Market Data'
    }
  })
>>
    [None] when it throws. *)
Definition migrate_item (item : value) : option value :=
  let o0 := own_props item in
  imageUrls ← member item k_imageUrls;
  urls ← (if truthy imageUrls then Some imageUrls
          else imageUrl ← member item k_imageUrl;
               Some (if truthy imageUrl then VArr [imageUrl] else VArr []));
  let o1 := define k_imageUrls urls o0 in
  md ← member item k_marketData;
  let m0 := own_props md in
  pros ← member md k_pros;
  let m1 := define k_pros (or_else pros (VArr [])) m0 in
  cons ← member md k_cons;
  let m2 := define k_cons (or_else cons (VArr [])) m1 in
  currency ← member md k_currency;
  let m3 := define k_currency (or_else currency (VStr (js "HKD"))) m2 in
  priceSource ← member md k_priceSource;
  let m4 := define k_priceSource (or_else priceSource (VStr (js "Market Data"))) m3 in
  Some (VObj (define k_marketData (VObj m4) o1)).

(** [parsedData.map(...)]: defined on arrays, a [TypeError] on anything
    else [JSON.parse] returns. *)
Definition migratedData (parsedData : value) : option value :=
  match parsedData with
  | VArr items => VArr <$> mapM migrate_item items
  | _ => None
  end.

(** The image list of a migrated record. *)
Definition imageUrls_of (record : value) : option value :=
  member record k_imageUrls.

(** The record has no field [k]. *)
Definition lacks (k : jstring) (item : value) : bool :=
  match item with
  | VObj ps => bool_decide (lookup_prop k ps = None)
  | _ => true
  end.

(** [item.marketData] can be read and is neither [undefined] nor [null]. *)
Definition has_marketData (item : value) : bool :=
  match member item k_marketData with
  | Some VUndefined | Some VNull | None => false
  | Some _ => true
  end.

(** Field [k] is present with a truthy value. *)
Definition has_truthy (k : jstring) (ps : props_t) : bool :=
  match lookup_prop k ps with
  | Some v => truthy v
  | None => false
  end.

(** The shape the migration leaves nothing to do on: an image list, and
    market data with pros, cons, currency and price source. *)
Definition is_current (record : value) : bool :=
  match record with
  | VObj o =>
      has_truthy k_imageUrls o &&
      match lookup_prop k_marketData o with
      | Some (VObj m) =>
          has_truthy k_pros m && has_truthy k_cons m &&
          has_truthy k_currency m && has_truthy k_priceSource m
      | _ => false
      end
  | _ => false
  end.

End Migration.

(* ================================================================== *)
(** ** The valuation service ([services/geminiService.ts]) *)
(* ================================================================== *)

Module Gemini.

(** An [Error] object; only its message is ever read. *)
Record Error := { message : jstring }.

(** The outcome of a call that returns or throws. *)
Inductive outcome (A : Type) :=
| Returns (a : A)
| Throws (e : Error).
Arguments Returns {A} a.
Arguments Throws {A} e.

(** "無法獲取市場數據，請稍後再試。": the message of the error that
    [getMarketValuation] throws from its [catch] block. *)
Definition MARKET_ERROR_MESSAGE : jstring :=
  [0x7121; 0x6CD5; 0x7372; 0x53D6; 0x5E02; 0x5834; 0x6578; 0x64DA; 0xFF0C;
   0x8ACB; 0x7A0D; 0x5F8C; 0x518D; 0x8A66; 0x3002]%N.

(** The parts of the gateway's response that the code reads:
    [response.text] and
    [response.candidates?.[0]?.groundingMetadata?.groundingChunks], each
    chunk with its optional [web] citation. *)
Record Web := { title : value; uri : value }.
Record GroundingChunk := { web : option Web }.
Record GroundingMetadata := { groundingChunks : option (list GroundingChunk) }.
Record Candidate := { groundingMetadata : option GroundingMetadata }.
Record Response := {
  text : option jstring;
  candidates : option (list Candidate)
}.

(** [chunk.web ? { title: chunk.web.title, uri: chunk.web.uri } : null],
    with [None] for [null]. *)
Definition citation (chunk : GroundingChunk) : option value :=
  match web chunk with
  | Some w => Some (VObj [(js "title", title w); (js "uri", uri w)])
  | None => None
  end.

(** [?.map(...).filter(s => s !== null)]. *)
Definition citations (chunks : list GroundingChunk) : list value :=
  omap citation chunks.

(** The constant [sources]:
<<
  response.candidates?.[0]?.groundingMetadata?.groundingChunks
    ?.map(...).filter(...) || []
>> *)
Definition sources_of (response : Response) : list value :=
  default [] (
    cs ← candidates response;
    c ← cs !! 0;
    gm ← groundingMetadata c;
    chunks ← groundingChunks gm;
    Some (citations chunks)).

(** [sources.slice(0, 5)]. *)
Definition slice_0_5 (sources : list value) : list value := take 5 sources.

Section WithParser.

(** [JSON.parse]; [None] when it throws a [SyntaxError]. *)
Variable JSON_parse : jstring → option value.

(** [getMarketValuation], from the point where the awaited
    [ai.models.generateContent] call has returned or thrown.  The [currency]
    parameter is optional and defaults to ['HKD'].  Whatever is thrown in
    the [try] block is replaced by the fixed error of the [catch] block. *)
Definition getMarketValuation
    (generateContent : outcome Response) (currency : option jstring)
    : outcome value :=
  let currency := default (js "HKD") currency in
  let failed := Throws {| message := MARKET_ERROR_MESSAGE |} in
  match generateContent with
  | Throws _ => failed
  | Returns response =>
      let sources := sources_of response in
      match text response with
      | Some ((_ :: _) as t) =>
          match JSON_parse t with
          | Some data =>
              Returns (VObj (define (js "sources") (VArr (slice_0_5 sources))
                            (define (js "currency") (VStr currency)
                               (own_props data))))
          | None => failed
          end
      | _ => failed
      end
  end.

End WithParser.

(** The fields that the response schema sent to the gateway lists as
    [required]. *)
Definition required_fields : list jstring :=
  [js "averagePrice"; js "currency"; js "history"; js "reviewsSummary";
   js "pros"; js "cons"; js "priceSource"].

(** A parsed response carries field [k]. *)
Definition has_field (data : value) (k : jstring) : bool :=
  match data with
  | VObj ps => bool_decide (is_Some (lookup_prop k ps))
  | _ => false
  end.

(** Some required field is missing from a parsed response. *)
Definition missing_required (data : value) : bool :=
  existsb (λ k, negb (has_field data k)) required_fields.

(** The three ways the [try] block of [getMarketValuation] ends in the
    [catch] block: the gateway call throws, the response has no text or an
    empty one, the text does not parse. *)
Definition no_data (JSON_parse : jstring → option value)
    (generateContent : outcome Response) : bool :=
  match generateContent with
  | Throws _ => true
  | Returns response =>
      match text response with
      | Some ((_ :: _) as t) =>
          match JSON_parse t with Some _ => false | None => true end
      | _ => true
      end
  end.

End Gemini.

(* ================================================================== *)
(** ** Data model ([types.ts]) *)
(* ================================================================== *)

Module Types.

(** [bestImageIndex] is the optional field; the response schema of the
    identification call declares it an integer, and the model keeps to
    integers. *)
Record WatchIdentity := {
  brand : jstring;
  model : jstring;
  referenceNumber : jstring;
  estimatedYear : jstring;
  confidence : number;
  description : jstring;
  bestImageIndex : option Z
}.

(** [marketData] is the object [getMarketValuation] returned, as it is at
    run time. *)
Record AppraisalReport := {
  id : jstring;
  date : jstring;
  imageUrls : list jstring;
  purchasePrice : number;
  identity : WatchIdentity;
  marketData : value
}.

Inductive AppState :=
| IDLE
| ANALYZING_IMAGE
| IDENTITY_CONFIRMED
| SEARCHING_MARKET
| REPORT_READY
| VIEWING_COLLECTION
| VIEWING_COLLECTION_DETAIL
| ERROR.

#[global] Instance AppState_eq_dec : EqDecision AppState.
Proof. solve_decision. Defined.

End Types.

(* ================================================================== *)
(** ** The component ([App.tsx]) *)
(* ================================================================== *)

Module App.

Import Gemini.
Export Types.

(** The hooks of the component, and the slot ['horology_collection'] of
    [localStorage]. *)
Record App := {
  state : AppState;
  images : list jstring;
  purchasePrice : jstring;
  currency : jstring;
  identity : option WatchIdentity;
  marketData : option value;
  report : option AppraisalReport;
  error : option jstring;
  collection : list AppraisalReport;
  horology_collection : option jstring
}.

(** The initial values of the hooks. *)
Definition initial (slot : option jstring) : App :=
  {| state := IDLE; images := []; purchasePrice := []; currency := js "HKD";
     identity := None; marketData := None; report := None; error := None;
     collection := []; horology_collection := slot |}.

Definition setState (x : AppState) (s : App) : App :=
  {| state := x; images := images s; purchasePrice := purchasePrice s;
     currency := currency s; identity := identity s;
     marketData := marketData s; report := report s; error := error s;
     collection := collection s;
     horology_collection := horology_collection s |}.

Definition setImages (x : list jstring) (s : App) : App :=
  {| state := state s; images := x; purchasePrice := purchasePrice s;
     currency := currency s; identity := identity s;
     marketData := marketData s; report := report s; error := error s;
     collection := collection s;
     horology_collection := horology_collection s |}.

Definition setPurchasePrice (x : jstring) (s : App) : App :=
  {| state := state s; images := images s; purchasePrice := x;
     currency := currency s; identity := identity s;
     marketData := marketData s; report := report s; error := error s;
     collection := collection s;
     horology_collection := horology_collection s |}.

Definition setCurrency (x : jstring) (s : App) : App :=
  {| state := state s; images := images s; purchasePrice := purchasePrice s;
     currency := x; identity := identity s;
     marketData := marketData s; report := report s; error := error s;
     collection := collection s;
     horology_collection := horology_collection s |}.

Definition setIdentity (x : option WatchIdentity) (s : App) : App :=
  {| state := state s; images := images s; purchasePrice := purchasePrice s;
     currency := currency s; identity := x;
     marketData := marketData s; report := report s; error := error s;
     collection := collection s;
     horology_collection := horology_collection s |}.

Definition setMarketData (x : option value) (s : App) : App :=
  {| state := state s; images := images s; purchasePrice := purchasePrice s;
     currency := currency s; identity := identity s;
     marketData := x; report := report s; error := error s;
     collection := collection s;
     horology_collection := horology_collection s |}.

Definition setReport (x : option AppraisalReport) (s : App) : App :=
  {| state := state s; images := images s; purchasePrice := purchasePrice s;
     currency := currency s; identity := identity s;
     marketData := marketData s; report := x; error := error s;
     collection := collection s;
     horology_collection := horology_collection s |}.

Definition setError (x : option jstring) (s : App) : App :=
  {| state := state s; images := images s; purchasePrice := purchasePrice s;
     currency := currency s; identity := identity s;
     marketData := marketData s; report := report s; error := x;
     collection := collection s;
     horology_collection := horology_collection s |}.

Definition setCollection (x : list AppraisalReport) (s : App) : App :=
  {| state := state s; images := images s; purchasePrice := purchasePrice s;
     currency := currency s; identity := identity s;
     marketData := marketData s; report := report s; error := error s;
     collection := x;
     horology_collection := horology_collection s |}.

(** [localStorage.setItem('horology_collection', x)]. *)
Definition localStorage_setItem (x : jstring) (s : App) : App :=
  {| state := state s; images := images s; purchasePrice := purchasePrice s;
     currency := currency s; identity := identity s;
     marketData := marketData s; report := report s; error := error s;
     collection := collection s;
     horology_collection := Some x |}.

(** A file of the upload input; the handlers never look inside. *)
Inductive File := Blob (bytes : list N).

(** What a handler asks of its environment: a notice shown at once, or a
    request whose answer resumes the handler later. *)
Inductive command :=
| Alert (msg : jstring)
| ReadAsDataURL (files : list File)
| IdentifyWatchFromImage (imagesBase64 : list (option jstring))
| GetMarketValuation (identity : WatchIdentity) (price : number)
    (currency : jstring).

(** "最多只能上傳 3 張照片 (Max 3 photos allowed)". *)
Definition MAX_PHOTOS_NOTICE : jstring :=
  [0x6700; 0x591A; 0x53EA; 0x80FD; 0x4E0A; 0x50B3; 0x0020; 0x0033; 0x0020;
   0x5F35; 0x7167; 0x7247; 0x0020]%N ++ js "(Max 3 photos allowed)".

(** [s.split(sep)] for a one-unit separator. *)
Fixpoint split (sep : code_unit) (s : jstring) : list jstring :=
  match s with
  | [] => [[]]
  | c :: s =>
      if decide (c = sep) then [] :: split sep s
      else match split sep s with
           | p :: ps => (c :: p) :: ps
           | [] => [[c]]
           end
  end.

(** [l.filter((_, i) => p(i))], the indices counted from [i0]. *)
Fixpoint filter_index {A} (p : nat → bool) (i0 : nat) (l : list A) : list A :=
  match l with
  | [] => []
  | x :: l =>
      if p i0 then x :: filter_index p (S i0) l else filter_index p (S i0) l
  end.

(** [err.message || fallback]. *)
Definition message_or (err : Error) (fallback : jstring) : jstring :=
  match message err with
  | [] => fallback
  | m => m
  end.

Inductive View := view_home | view_collection.

Section Handlers.

(** [JSON.stringify] on a collection, and [parseFloat]. *)
Variable JSON_stringify : list AppraisalReport → jstring.
Variable parseFloat : jstring → number.

Definition saveCollection (newCollection : list AppraisalReport) (s : App)
    : App :=
  localStorage_setItem (JSON_stringify newCollection)
    (setCollection newCollection s).

Definition handleSaveToCollection (newReport : AppraisalReport) (s : App)
    : App :=
  if existsb (λ item, bool_decide (id item = id newReport)) (collection s)
  then s
  else
    let updated := newReport :: collection s in
    saveCollection updated s.

Definition handleDeleteFromCollection (id0 : jstring) (s : App) : App :=
  let updated := filter (λ item, id item ≠ id0) (collection s) in
  saveCollection updated s.

Definition handleSelectFromCollection (selectedReport : AppraisalReport)
    (s : App) : App :=
  setState VIEWING_COLLECTION_DETAIL (setReport (Some selectedReport) s).

Definition resetApp (s : App) : App :=
  setError None (setReport None (setMarketData None (setIdentity None
    (setPurchasePrice [] (setImages [] (setState IDLE s)))))).

Definition handleNavigate (view : View) (s : App) : App :=
  match view with
  | view_collection => setState VIEWING_COLLECTION s
  | view_home =>
      if bool_decide (state s = VIEWING_COLLECTION)
         || bool_decide (state s = VIEWING_COLLECTION_DETAIL)
      then
        if bool_decide (is_Some (report s))
           && bool_decide (state s ≠ VIEWING_COLLECTION_DETAIL)
        then setState REPORT_READY s
        else if bool_decide (is_Some (identity s))
                && bool_decide (state s ≠ VIEWING_COLLECTION_DETAIL)
        then setState IDENTITY_CONFIRMED s
        else resetApp s
      else s
  end.

(** [analyzeImage] up to its [await]. *)
Definition analyzeImage (base64Images : list (option jstring)) (s : App)
    : App * list command :=
  (setError None (setState ANALYZING_IMAGE s),
   [IdentifyWatchFromImage base64Images]).

(** [analyzeImage] from the point where [identifyWatchFromImage] has
    settled; [s] is the state the hooks hold then.  In the guarded branch
    [full !!! k] is [currentFullImages[k]]. *)
Definition analyzeImage_then (currentFullImages : option (list jstring))
    (settled : outcome WatchIdentity) (s : App) : App :=
  match settled with
  | Returns result =>
      let s :=
        match currentFullImages, bestImageIndex result with
        | Some full, Some k =>
            if (0 <=? k)%Z && (k <? Z.of_nat (length full))%Z
            then
              let bestImg := full !!! Z.to_nat k in
              let otherImages :=
                filter_index (λ i, bool_decide (Z.of_nat i ≠ k)) 0 full in
              let sortedImages := bestImg :: otherImages in
              setImages sortedImages s
            else s
        | _, _ => s
        end in
      setState IDENTITY_CONFIRMED (setIdentity (Some result) s)
  | Throws err =>
      setState ERROR
        (setError (Some (message_or err (js "Failed to identify image"))) s)
  end.

(** [handleImageUpload] up to the point where the files are being read;
    [files] is [e.target.files]. *)
Definition handleImageUpload (files : option (list File)) (s : App)
    : App * list command :=
  match files with
  | Some fileArray =>
      if 0 <? length fileArray then
        if 3 <? length fileArray then (s, [Alert MAX_PHOTOS_NOTICE])
        else (s, [ReadAsDataURL fileArray])
      else (s, [])
  | None => (s, [])
  end.

(** The callback of [Promise.all(promises).then]. *)
Definition handleImageUpload_then (base64Images : list jstring) (s : App)
    : App * list command :=
  let s := setImages base64Images s in
  let rawBase64s := (λ img, split 44%N img !! 1) <$> base64Images in
  analyzeImage rawBase64s s.

(** [handleAppraisal] up to its [await]. *)
Definition handleAppraisal (s : App) : App * list command :=
  match identity s, purchasePrice s with
  | Some ident, _ :: _ =>
      (setState SEARCHING_MARKET s,
       [GetMarketValuation ident (parseFloat (purchasePrice s)) (currency s)])
  | _, _ => (s, [])
  end.

(** [handleAppraisal] from the point where [getMarketValuation] has
    settled.  [c] is the render whose hooks the handler closed over and
    [ident] its identity; [randomUUID] and [today] are what
    [crypto.randomUUID()] and [new Date().toLocaleDateString('zh-HK')]
    return; [s] is the state the hooks hold then. *)
Definition handleAppraisal_then (c : App) (ident : WatchIdentity)
    (randomUUID today : jstring) (settled : outcome value) (s : App) : App :=
  match settled with
  | Returns data =>
      let s := setMarketData (Some data) s in
      let newReport :=
        {| id := randomUUID; date := today; imageUrls := images c;
           Types.purchasePrice := parseFloat (purchasePrice c);
           Types.identity := ident; Types.marketData := data |} in
      setState REPORT_READY (setReport (Some newReport) s)
  | Throws err =>
      setState ERROR
        (setError (Some (message_or err (js "Failed to fetch market data"))) s)
  end.

End Handlers.

(** The specification's words for the state after navigating home from the
    collection views: "ReportReady if a report is active and state is not
    the detail view [...], else IdentityConfirmed if an identity is active,
    else Idle". *)
Definition spec_home_target (s : App) : AppState :=
  if bool_decide (is_Some (report s))
     && bool_decide (state s ≠ VIEWING_COLLECTION_DETAIL)
  then REPORT_READY
  else if bool_decide (is_Some (identity s)) then IDENTITY_CONFIRMED
  else IDLE.

End App.

(* ================================================================== *)
(** ** Sample data for the examples *)
(* ================================================================== *)

Module Samples.

Import Gemini App.

(** [s] between double quotes (code unit 34). *)
Definition quoted (s : string) : jstring := 34%N :: js s ++ [34%N].

(** A record saved before the image list existed, with a single image. *)
Definition legacy_record : value :=
  VObj [(js "id", VStr (js "r1"));
        (js "imageUrl", VStr (js "data:a"));
        (js "marketData", VObj [(js "averagePrice", VNum (num 60000))])].

(** A record with market data and no image at all. *)
Definition imageless_record : value :=
  VObj [(js "id", VStr (js "r2"));
        (js "marketData", VObj [(js "averagePrice", VNum (num 60000))])].

(** The text of a response with an average price and nothing else, and
    what [JSON.parse] returns on it. *)
Definition incomplete_text : jstring :=
  js "{" ++ quoted "averagePrice" ++ js ":60000}".
Definition incomplete_data : value :=
  VObj [(js "averagePrice", VNum (num 60000))].

(** The text of a response that claims the currency HKD. *)
Definition hkd_text : jstring :=
  js "{" ++ quoted "currency" ++ js ":" ++ quoted "HKD" ++ js "}".
Definition hkd_data : value := VObj [(js "currency", VStr (js "HKD"))].

(** [JSON.parse] on the two texts above. *)
Definition JSON_parse_samples (t : jstring) : option value :=
  if decide (t = incomplete_text) then Some incomplete_data
  else if decide (t = hkd_text) then Some hkd_data
  else None.

(** A grounding chunk with a web citation. *)
Definition cite (name : string) : GroundingChunk :=
  {| web := Some {| title := VStr (js name); uri := VStr (js "https://x") |} |}.
Definition cited (name : string) : value :=
  VObj [(js "title", VStr (js name)); (js "uri", VStr (js "https://x"))].

(** A response whose first candidate carries eight citations. *)
Definition response_8 : Response :=
  {| text := Some hkd_text;
     candidates := Some [
       {| groundingMetadata := Some {| groundingChunks := Some
            [cite "1"; cite "2"; cite "3"; cite "4";
             cite "5"; cite "6"; cite "7"; cite "8"] |} |}] |}.

Definition incomplete_response : Response :=
  {| text := Some incomplete_text; candidates := None |}.

(** An identification that designates image [k] as the cover. *)
Definition with_index (k : option Z) : WatchIdentity :=
  {| brand := js "Omega"; model := js "Speedmaster"; referenceNumber := [];
     estimatedYear := []; confidence := num 90; description := js "x";
     bestImageIndex := k |}.

Definition omega : WatchIdentity := with_index (Some 1%Z).

Definition report_of (i : string) : AppraisalReport :=
  {| id := js i; date := js "2024/1/30"; imageUrls := [js "A"];
     Types.purchasePrice := num 50000; Types.identity := omega;
     Types.marketData := hkd_data |}.

(** A serializer and a number reader for the examples, which depend on
    neither. *)
Definition stringify_ids (l : list AppraisalReport) : jstring :=
  mjoin (id <$> l).
Definition parseFloat_50000 (_ : jstring) : number := num 50000.

(** A session with two saved reports. *)
Definition two_saved : App :=
  setCollection [report_of "a"; report_of "b"] (initial None).

(** The identity is confirmed, then the user opens the collection and
    selects a saved report. *)
Definition detail_with_identity : App :=
  handleSelectFromCollection (report_of "a")
    (handleNavigate view_collection
       (setState IDENTITY_CONFIRMED (setIdentity (Some omega) two_saved))).

(** The identity is confirmed, then the user opens the collection. *)
Definition collection_with_identity : App :=
  handleNavigate view_collection
    (setState IDENTITY_CONFIRMED (setIdentity (Some omega) two_saved)).

Definition four_files : list File :=
  [Blob []; Blob []; Blob []; Blob []].

End Samples.

(* ================================================================== *)
(** ** The mount effect ([App.tsx], [useEffect]) *)
(* ================================================================== *)

Module Mount.

Import Migration.

Section WithParser.

Variable JSON_parse : jstring → option value.

(** The body of the effect: [saved] is what
    [localStorage.getItem('horology_collection')] returns ([None] for
    [null]).  The result is the array handed to [setCollection]; it is
    [None] when [setCollection] is not called, because the slot is absent
    or empty or because something in the [try] block threw. *)
Definition loadCollection (saved : option jstring) : option value :=
  match saved with
  | Some ((_ :: _) as t) =>
      parsedData ← JSON_parse t;
      migratedData parsedData
  | _ => None
  end.

End WithParser.

End Mount.

(* ================================================================== *)
(** ** The identification service ([services/geminiService.ts]) *)
(* ================================================================== *)

Module Vision.

Import Gemini.

(** "無法識別圖片中的手錶，請確保圖片清晰。": the message of the error that
    [identifyWatchFromImage] throws from its [catch] block. *)
Definition VISION_ERROR_MESSAGE : jstring :=
  [0x7121; 0x6CD5; 0x8B58; 0x5225; 0x5716; 0x7247; 0x4E2D; 0x7684; 0x624B;
   0x9336; 0xFF0C; 0x8ACB; 0x78BA; 0x4FDD; 0x5716; 0x7247; 0x6E05; 0x6670;
   0x3002]%N.

Section WithParser.

Variable JSON_parse : jstring → option value.

(** [identifyWatchFromImage], from the point where the awaited
    [ai.models.generateContent] call has returned or thrown.  The result is
    what [JSON.parse] returns, before the cast to [WatchIdentity]. *)
Definition identifyWatchFromImage (generateContent : outcome Response)
    : outcome value :=
  let failed := Throws {| message := VISION_ERROR_MESSAGE |} in
  match generateContent with
  | Throws _ => failed
  | Returns response =>
      match text response with
      | Some ((_ :: _) as t) =>
          match JSON_parse t with
          | Some parsed => Returns parsed
          | None => failed
          end
      | _ => failed
      end
  end.

End WithParser.

End Vision.

(* ================================================================== *)
(** ** What the component shows ([App.tsx], the returned JSX) *)
(* ================================================================== *)

Module Render.

Import App.

(** The blocks of [<main>], each with the hooks it displays. *)
Inductive region :=
| UploadArea
| IdentityPanel (ident : WatchIdentity) (shown : list jstring)
| SearchingPanel (cur : jstring)
| NewReport (rep : AppraisalReport) (saved : bool)
| SavedReport (rep : AppraisalReport)
| CollectionPanel (reports : list AppraisalReport)
| ErrorPanel (msg : option jstring).

(** [collection.some(item => item.id === report.id)]. *)
Definition isSaved (report : AppraisalReport) (s : App) : bool :=
  existsb (λ item, bool_decide (id item = id report)) (collection s).

(** The children of [<main>]: seven conditional blocks, in the order of
    the source; a block whose condition is false contributes nothing. *)
Definition main (s : App) : list region :=
  (if bool_decide (state s = IDLE) then [UploadArea] else [])
  ++ (if bool_decide (state s = IDENTITY_CONFIRMED)
      then match identity s with
           | Some ident => [IdentityPanel ident (images s)]
           | None => []
           end
      else [])
  ++ (if bool_decide (state s = SEARCHING_MARKET)
      then [SearchingPanel (currency s)] else [])
  ++ (if bool_decide (state s = REPORT_READY)
      then match report s with
           | Some rep => [NewReport rep (isSaved rep s)]
           | None => []
           end
      else [])
  ++ (if bool_decide (state s = VIEWING_COLLECTION_DETAIL)
      then match report s with
           | Some rep => [SavedReport rep]
           | None => []
           end
      else [])
  ++ (if bool_decide (state s = VIEWING_COLLECTION)
      then [CollectionPanel (collection s)] else [])
  ++ (if bool_decide (state s = ERROR) then [ErrorPanel (error s)] else []).

(** [onReset] of the report opened from the collection:
    [() => setState(AppState.VIEWING_COLLECTION)]. *)
Definition detail_onReset (s : App) : App := setState VIEWING_COLLECTION s.

End Render.

(* ================================================================== *)
(** ** The certificate ([components/ReportView.tsx]) *)
(* ================================================================== *)

Module ReportView.

Import App.

(** The name of an exported file:
    [`HorologyAI-${report.identity.brand}-${report.id.slice(0, 6)}.jpg`],
    and the same with [.pdf]. *)
Definition download_name (report : AppraisalReport) (ext : jstring)
    : jstring :=
  js "HorologyAI-" ++ brand (Types.identity report) ++ js "-"
    ++ take 6 (id report) ++ ext.

Definition jpg_name (report : AppraisalReport) : jstring :=
  download_name report (js ".jpg").
Definition pdf_name (report : AppraisalReport) : jstring :=
  download_name report (js ".pdf").



(** The receiver of [report.marketData.k.map(...)]: the array it maps
    over, [None] when the call throws a [TypeError] (the market data is
    [undefined] or [null], or the field is not an array). *)
Definition mapped (marketData : value) (k : jstring) : option (list value) :=
  match member marketData k with
  | Some (VArr l) => Some l
  | _ => None
  end.

(** The three lists of the certificate: [pros.map], [cons.map] and
    [sources.slice(0, 3).map]; [None] when one of them throws, which
    aborts the render. *)
Definition list_sections (report : AppraisalReport)
    : option (list value * list value * list value) :=
  pros ← mapped (Types.marketData report) (js "pros");
  cons ← mapped (Types.marketData report) (js "cons");
  sources ← mapped (Types.marketData report) (js "sources");
  Some (pros, cons, take 3 sources).

End ReportView.

(* ================================================================== *)
(** ** The component over time *)
(* ================================================================== *)

Module EventLoop.

Import Gemini Vision App.

(** A call whose answer has not arrived, with what its continuation closed
    over. *)
Inductive pending :=
| Reading (fileArray : list File)
| Identifying (currentFullImages : list jstring)
| Valuating (c : App) (ident : WatchIdentity).

Record World := { hooks : App; pendings : list pending }.

(** A handler that awaits nothing. *)
Definition on (f : App → App) (w : World) : World :=
  {| hooks := f (hooks w); pendings := pendings w |}.

(** The calls a handler leaves pending, from the commands it issued in
    render [c]. *)
Definition pending_of (c : App) (cmd : command) : list pending :=
  match cmd with
  | ReadAsDataURL fileArray => [Reading fileArray]
  | GetMarketValuation ident _ _ => [Valuating c ident]
  | Alert _ | IdentifyWatchFromImage _ => []
  end.

Section Steps.

Variable JSON_parse : jstring → option value.
Variable JSON_stringify : list AppraisalReport → jstring.
Variable parseFloat : jstring → number.

(** One event: a handler called from the page, in any state, with any
    argument, or the answer to a pending call.  Reading a batch of files
    answers with one data URL per file; an identification answers with an
    identity, an object of type [WatchIdentity] as the signature of
    [identifyWatchFromImage] says, or with the error of its [catch] block;
    a valuation answers with what [getMarketValuation] makes of the
    gateway's response.  The calls to the platform ([localStorage.setItem],
    [crypto.randomUUID], the date formatting) return. *)
Inductive step : World → World → Prop :=
| step_navigate view w :
    step w (on (handleNavigate view) w)
| step_reset w :
    step w (on resetApp w)
| step_detail_back w :
    step w (on Render.detail_onReset w)
| step_price x w :
    step w (on (setPurchasePrice x) w)
| step_currency x w :
    step w (on (setCurrency x) w)
| step_save r w :
    step w (on (handleSaveToCollection JSON_stringify r) w)
| step_delete i w :
    step w (on (handleDeleteFromCollection JSON_stringify i) w)
| step_select r w :
    step w (on (handleSelectFromCollection r) w)
| step_choose files w :
    step w
      {| hooks := (handleImageUpload files (hooks w)).1;
         pendings := pendings w
           ++ ((handleImageUpload files (hooks w)).2 ≫= pending_of (hooks w)) |}
| step_files_read fileArray base64Images p1 p2 w :
    pendings w = p1 ++ Reading fileArray :: p2 →
    length base64Images = length fileArray →
    step w
      {| hooks := (handleImageUpload_then base64Images (hooks w)).1;
         pendings := p1 ++ p2 ++ [Identifying base64Images] |}
| step_identified L result p1 p2 w :
    pendings w = p1 ++ Identifying L :: p2 →
    step w
      {| hooks := analyzeImage_then (Some L) (Returns result) (hooks w);
         pendings := p1 ++ p2 |}
| step_identify_failed L p1 p2 w :
    pendings w = p1 ++ Identifying L :: p2 →
    step w
      {| hooks := analyzeImage_then (Some L)
                  (Throws {| message := VISION_ERROR_MESSAGE |}) (hooks w);
         pendings := p1 ++ p2 |}
| step_appraise w :
    step w
      {| hooks := (handleAppraisal parseFloat (hooks w)).1;
         pendings := pendings w
           ++ ((handleAppraisal parseFloat (hooks w)).2 ≫= pending_of (hooks w)) |}
| step_valuated c ident gateway randomUUID today p1 p2 w :
    pendings w = p1 ++ Valuating c ident :: p2 →
    step w
      {| hooks := handleAppraisal_then parseFloat c ident randomUUID today
                  (getMarketValuation JSON_parse gateway (Some (currency c)))
                  (hooks w);
         pendings := p1 ++ p2 |}.

(** The component once mounted: the initial hooks, the collection the
    mount effect loaded ([[]] when it loaded nothing), nothing pending. *)
Definition mounted (slot : option jstring) (loaded : list AppraisalReport)
    : World :=
  {| hooks := setCollection loaded (initial slot); pendings := [] |}.

Definition reachable (slot : option jstring) (loaded : list AppraisalReport)
    (w : World) : Prop :=
  rtc step (mounted slot loaded) w.

End Steps.


(** An error state carries one of the two messages of the services. *)
Definition fixed_error (s : App) : Prop :=
  state s = ERROR →
  error s = Some VISION_ERROR_MESSAGE ∨ error s = Some MARKET_ERROR_MESSAGE.

(** Both together. *)
Definition consistent (s : App) : Prop :=
  (state s = IDENTITY_CONFIRMED → is_Some (identity s)) ∧
  (state s = REPORT_READY → is_Some (report s)) ∧
  (state s = VIEWING_COLLECTION_DETAIL → is_Some (report s)) ∧
  (state s = ERROR →
   error s = Some VISION_ERROR_MESSAGE ∨ error s = Some MARKET_ERROR_MESSAGE).




(** Collection and persisted slot are the same in [s] and [s']. *)
Definition same_store (s s' : App) : Prop :=
  collection s' = collection s ∧
  horology_collection s' = horology_collection s.

End EventLoop.

(* ================================================================== *)
(** ** More sample data *)
(* ================================================================== *)

Module MoreSamples.

Import Gemini App Samples.

(** JSON text: [k:v], [{f1,f2,...}] and [[e1,e2,...]]. *)
Definition field (k : string) (v : jstring) : jstring :=
  quoted k ++ js ":" ++ v.
Fixpoint commas (parts : list jstring) : jstring :=
  match parts with
  | [] => []
  | [p] => p
  | p :: parts => p ++ js "," ++ commas parts
  end.
Definition object_text (fields : list jstring) : jstring :=
  js "{" ++ commas fields ++ js "}".
Definition array_text (elems : list jstring) : jstring :=
  js "[" ++ commas elems ++ js "]".

(** The text of [legacy_record]. *)
Definition legacy_text : jstring :=
  object_text [field "id" (quoted "r1"); field "imageUrl" (quoted "data:a");
               field "marketData"
                 (object_text [field "averagePrice" (js "60000")])].

(** A record with an id and nothing else, and its text. *)
Definition stray_record : value := VObj [(js "id", VStr (js "r3"))].
Definition stray_text : jstring := object_text [field "id" (quoted "r3")].

(** A record in the current shape, and its text. *)
Definition current_record : value :=
  VObj [(js "id", VStr (js "r4"));
        (js "imageUrls", VArr [VStr (js "data:a")]);
        (js "marketData",
         VObj [(js "pros", VArr [VStr (js "a")]);
               (js "cons", VArr [VStr (js "b")]);
               (js "currency", VStr (js "USD"));
               (js "priceSource", VStr (js "eBay"))])].
Definition current_text : jstring :=
  object_text [field "id" (quoted "r4");
               field "imageUrls" (array_text [quoted "data:a"]);
               field "marketData"
                 (object_text [field "pros" (array_text [quoted "a"]);
                               field "cons" (array_text [quoted "b"]);
                               field "currency" (quoted "USD");
                               field "priceSource" (quoted "eBay")])].

(** Three contents of the persisted slot. *)
Definition slot_legacy : jstring := array_text [legacy_text].
Definition slot_blocked : jstring := array_text [legacy_text; stray_text].
Definition slot_current : jstring := array_text [current_text].

(** [JSON.parse] on the three slot contents. *)
Definition JSON_parse_slots (t : jstring) : option value :=
  if decide (t = slot_legacy) then Some (VArr [legacy_record])
  else if decide (t = slot_blocked) then Some (VArr [legacy_record; stray_record])
  else if decide (t = slot_current) then Some (VArr [current_record])
  else None.

(** A data URL, as its header and its payload. *)
Definition png_header : jstring := js "data:image/png;base64".
Definition url_a : jstring := png_header ++ 44%N :: js "QQ".

(** A session in which one image has been uploaded and read, and the
    identification is awaited. *)
Definition awaiting_identification : EventLoop.World :=
  {| EventLoop.hooks :=
       (handleImageUpload_then [url_a] (initial None)).1;
     EventLoop.pendings := [EventLoop.Identifying [url_a]] |}.

End MoreSamples.

(* ================================================================== *)
(** * Properties *)
(* ================================================================== *)

(** ** Property lists *)

Section PropertyLists.

Implicit Types (k : jstring) (v : value) (ps : props_t).

Lemma lookup_define_eq k v ps : lookup_prop k (define k v ps) = Some v.
Proof.
  induction ps as [|[k' v'] ps IH]; simpl.
  - by rewrite decide_True.
  - destruct (decide (k = k')) as [->|Hne]; simpl.
    + by rewrite decide_True.
    + by rewrite decide_False.
Qed.

Lemma lookup_define_ne k k' v ps :
  k ≠ k' → lookup_prop k (define k' v ps) = lookup_prop k ps.
Proof.
  intros Hne. induction ps as [|[k2 v2] ps IH]; simpl.
  - by rewrite decide_False.
  - destruct (decide (k' = k2)) as [->|Hne2]; simpl.
    + by rewrite !decide_False.
    + destruct (decide (k = k2)); done.
Qed.

(** Writing the value a property already has changes nothing, not even
    the order of the keys. *)
Lemma define_id k v ps : lookup_prop k ps = Some v → define k v ps = ps.
Proof.
  induction ps as [|[k' v'] ps IH]; simpl; [done|].
  destruct (decide (k = k')) as [->|Hne].
  - by intros [= ->].
  - intros H. by rewrite IH.
Qed.

Lemma member_obj ps k :
  member (VObj ps) k = Some (default VUndefined (lookup_prop k ps)).
Proof. reflexivity. Qed.

Lemma or_else_truthy a b : truthy a = true → or_else a b = a.
Proof. unfold or_else. by intros ->. Qed.

Lemma truthy_or_else a b : truthy b = true → truthy (or_else a b) = true.
Proof. unfold or_else. by destruct (truthy a) eqn:E. Qed.

End PropertyLists.

(** Two key literals differ. *)
Ltac key_ne := let H := fresh in intros H; vm_compute in H; discriminate H.

(** ** Migration *)

Section MigrationFacts.

Import Migration Samples.

Lemma has_truthy_define_eq k v ps :
  truthy v = true → has_truthy k (define k v ps) = true.
Proof. intros Hv. unfold has_truthy. by rewrite lookup_define_eq. Qed.

Lemma has_truthy_define_ne k k' v ps :
  k ≠ k' → has_truthy k (define k' v ps) = has_truthy k ps.
Proof. intros Hne. unfold has_truthy. by rewrite lookup_define_ne. Qed.

Lemma has_truthy_inv k ps :
  has_truthy k ps = true → ∃ v, lookup_prop k ps = Some v ∧ truthy v = true.
Proof. unfold has_truthy. destruct (lookup_prop k ps); naive_solver. Qed.

(** The market data the migration builds has its four fields, whatever it
    started from. *)
Lemma marketData_current p c cu s m0 :
  let m4 :=
    define k_priceSource (or_else s (VStr (js "Market Data")))
      (define k_currency (or_else cu (VStr (js "HKD")))
         (define k_cons (or_else c (VArr []))
            (define k_pros (or_else p (VArr [])) m0))) in
  has_truthy k_pros m4 && has_truthy k_cons m4 &&
  has_truthy k_currency m4 && has_truthy k_priceSource m4 = true.
Proof.
  intros m4. subst m4.
  rewrite !andb_true_iff. repeat split.
  - rewrite !has_truthy_define_ne by key_ne.
    by apply has_truthy_define_eq, truthy_or_else.
  - rewrite !has_truthy_define_ne by key_ne.
    by apply has_truthy_define_eq, truthy_or_else.
  - rewrite has_truthy_define_ne by key_ne.
    by apply has_truthy_define_eq, truthy_or_else.
  - by apply has_truthy_define_eq, truthy_or_else.
Qed.

(** What the migration returns, when it returns. *)
Lemma migrate_item_Some item r :
  migrate_item item = Some r →
  ∃ ps u p c cu s m0,
    item = VObj ps ∧ truthy u = true ∧
    r = VObj (define k_marketData
                (VObj (define k_priceSource (or_else s (VStr (js "Market Data")))
                         (define k_currency (or_else cu (VStr (js "HKD")))
                            (define k_cons (or_else c (VArr []))
                               (define k_pros (or_else p (VArr [])) m0)))))
                (define k_imageUrls u ps)).
Proof.
  intros H. destruct item as [| | | | | |ps]; try (by cbv in H).
  unfold migrate_item in H. rewrite !member_obj in H. simpl in H.
  set (urls := if truthy (default VUndefined (lookup_prop k_imageUrls ps))
               then _ else _) in H.
  assert (∃ u, urls = Some u ∧ truthy u = true) as (u & -> & Hu).
  { subst urls. destruct (truthy (default _ (lookup_prop k_imageUrls ps))) eqn:E;
      [by eauto|]. eexists; split; [done|].
    by destruct (truthy (default _ (lookup_prop k_imageUrl ps))). }
  destruct (default VUndefined (lookup_prop k_marketData ps)) as [| | | | | |m] eqn:Emd;
    cbn [member mbind option_bind] in H; try discriminate H;
    apply (inj Some) in H; eexists ps, u, _, _, _, _, _;
    (split; [reflexivity|split; [exact Hu|symmetry; exact H]]).
Qed.

(** Whatever the migration returns has the current shape. *)
Lemma migrate_item_current item r :
  migrate_item item = Some r → is_current r = true.
Proof.
  intros (ps & u & p & c & cu & s & m0 & -> & Hu & ->)%migrate_item_Some.
  unfold is_current.
  rewrite has_truthy_define_ne by key_ne.
  rewrite has_truthy_define_eq by done.
  rewrite lookup_define_eq. apply marketData_current.
Qed.

(** On a record of the current shape the migration returns the record. *)
Lemma is_current_fixed r : is_current r = true → migrate_item r = Some r.
Proof.
  destruct r as [| | | | | |o]; try done. simpl.
  intros [Hu Hm]%andb_true_iff.
  destruct (lookup_prop k_marketData o) as [[| | | | | |m]|] eqn:Emd; try done.
  apply andb_true_iff in Hm as [[[Hp Hc]%andb_true_iff Hcu]%andb_true_iff Hs].
  apply has_truthy_inv in Hu as (urls & Eu & Tu).
  apply has_truthy_inv in Hp as (p & Ep & Tp).
  apply has_truthy_inv in Hc as (c & Ec & Tc).
  apply has_truthy_inv in Hcu as (cu & Ecu & Tcu).
  apply has_truthy_inv in Hs as (s & Es & Ts).
  unfold migrate_item. rewrite !member_obj, Eu, Emd. simpl.
  rewrite Tu. simpl. rewrite Ep, Ec, Ecu, Es. simpl.
  rewrite !or_else_truthy by done.
  rewrite (define_id k_pros p m) by done.
  rewrite (define_id k_cons c m) by done.
  rewrite (define_id k_currency cu m) by done.
  rewrite (define_id k_priceSource s m) by done.
  rewrite (define_id k_imageUrls urls o) by done.
  by rewrite (define_id k_marketData (VObj m) o).
Qed.

Lemma migrate_item_fixed item r :
  migrate_item item = Some r → migrate_item r = Some r.
Proof. intros H. by apply is_current_fixed, (migrate_item_current item). Qed.

Lemma mapM_migrate_fixed items l :
  mapM migrate_item items = Some l → mapM migrate_item l = Some l.
Proof.
  rewrite !mapM_Some. induction 1 as [|x y items l Hxy _ IH]; constructor.
  - by apply (migrate_item_fixed x).
  - exact IH.
Qed.

(** C1. Migration idempotence: for every parsed record set, running the
    load-time migration on its own output returns that output, with the
    same fields in the same order; where the migration throws there is no
    output to run it on, and the composition throws as well. *)
Theorem migration_idempotent parsedData :
  migratedData parsedData ≫= migratedData = migratedData parsedData.
Proof.
  destruct parsedData as [| | | | |items|]; try done. simpl.
  destruct (mapM migrate_item items) as [l|] eqn:E; [|done]. simpl.
  by rewrite (mapM_migrate_fixed items l).
Qed.

(** Without market data to read, the callback throws. *)
Lemma migrate_item_throws item :
  has_marketData item = false → migrate_item item = None.
Proof.
  destruct item as [| | | | | |ps]; try done.
  unfold has_marketData, migrate_item. rewrite !member_obj.
  cbn [mbind option_bind].
  destruct (default VUndefined (lookup_prop k_marketData ps)); try done;
    intros _; by repeat case_match.
Qed.

Example migrate_legacy_record :
  migrate_item legacy_record =
  Some (VObj [(js "id", VStr (js "r1"));
              (js "imageUrl", VStr (js "data:a"));
              (js "marketData",
               VObj [(js "averagePrice", VNum (num 60000));
                     (js "pros", VArr []);
                     (js "cons", VArr []);
                     (js "currency", VStr (js "HKD"));
                     (js "priceSource", VStr (js "Market Data"))]);
              (js "imageUrls", VArr [VStr (js "data:a")])]).
Proof. reflexivity. Qed.

Example migrate_twice_legacy_record :
  migratedData (VArr [legacy_record]) ≫= migratedData =
  migratedData (VArr [legacy_record]) ∧
  migratedData (VArr [legacy_record]) ≠ Some (VArr [legacy_record]).
Proof. split; [reflexivity|discriminate]. Qed.

(** C10. A persisted record that has neither [imageUrls] nor [imageUrl]
    (and has market data, so that the migration returns at all) comes out
    of the migration with the empty image list: the migration does not
    establish the one-to-three-image shape of a report. *)
Theorem migration_empty_image_list item :
  lacks k_imageUrls item = true →
  lacks k_imageUrl item = true →
  has_marketData item = true →
  ∃ r, migrate_item item = Some r ∧ imageUrls_of r = Some (VArr []).
Proof.
  destruct item as [| | | | | |ps]; try done.
  unfold lacks, has_marketData, imageUrls_of.
  intros Hs%bool_decide_eq_true Hl%bool_decide_eq_true Hmd.
  unfold migrate_item. rewrite !member_obj in *. rewrite Hs, Hl.
  cbn [default truthy mbind option_bind].
  destruct (default VUndefined (lookup_prop k_marketData ps)); try done;
    cbn [member mbind option_bind]; eexists; (split; [reflexivity|]);
    rewrite member_obj, lookup_define_ne, lookup_define_eq by key_ne; done.
Qed.

Lemma migration_empty_image_list_witness :
  ∃ r, migrate_item imageless_record = Some r ∧
       imageUrls_of r = Some (VArr []).
Proof.
  apply (migration_empty_image_list imageless_record); reflexivity.
Defined.

End MigrationFacts.

(** ** The valuation service *)

Section ValuationFacts.

Import Gemini App Samples.

Variable JSON_parse : jstring → option value.

(** What [getMarketValuation] returns, when it returns. *)
Lemma getMarketValuation_Returns gateway cur data :
  getMarketValuation JSON_parse gateway cur = Returns data →
  ∃ response parsed,
    gateway = Returns response ∧
    data = VObj (define (js "sources") (VArr (slice_0_5 (sources_of response)))
                   (define (js "currency") (VStr (default (js "HKD") cur))
                      (own_props parsed))).
Proof.
  unfold getMarketValuation. cbv zeta.
  destruct gateway as [response|e]; [|done].
  destruct (text response) as [[|c t]|]; try done.
  destruct (JSON_parse (c :: t)) as [parsed|]; [|done].
  intros [= <-]. by exists response, parsed.
Qed.

(** C5. Currency force-set: when a valuation requested in currency [C]
    succeeds, the market data it returns has currency [C], whatever the
    response said, and that market data is the one attached to the report
    the workflow builds from it. *)
Theorem currency_force_set gateway C data :
  getMarketValuation JSON_parse gateway (Some C) = Returns data →
  member data (js "currency") = Some (VStr C) ∧
  ∀ parseFloat c ident randomUUID today s,
    Types.marketData <$>
      report (handleAppraisal_then parseFloat c ident randomUUID today
                (Returns data) s) = Some data.
Proof.
  intros (response & parsed & -> & ->)%getMarketValuation_Returns.
  split; [|done].
  by rewrite member_obj, lookup_define_ne, lookup_define_eq by key_ne.
Qed.

(** C6. Source cap: the citation list of the returned market data is the
    first five citations of the response, in their order; it has at most
    five entries, and exactly five when the response has more. *)
Theorem source_cap gateway cur data :
  getMarketValuation JSON_parse gateway cur = Returns data →
  ∃ response kept,
    gateway = Returns response ∧
    member data (js "sources") = Some (VArr kept) ∧
    kept = take 5 (sources_of response) ∧
    length kept ≤ 5 ∧
    (5 < length (sources_of response) → length kept = 5).
Proof.
  intros (response & parsed & -> & ->)%getMarketValuation_Returns.
  exists response, (take 5 (sources_of response)).
  rewrite member_obj, lookup_define_eq, length_take. repeat split; lia.
Qed.

(** C8, as the code has it. The valuation fails exactly when the gateway
    call throws, the response has no text or an empty one, or the text does
    not parse; the error then carries the fixed message, and the workflow
    that receives it enters the error state with that message and builds no
    report.  The fields of a parsed response are not inspected. *)
Theorem valuation_failure gateway cur :
  match getMarketValuation JSON_parse gateway cur with
  | Throws e =>
      no_data JSON_parse gateway = true ∧
      e = {| message := MARKET_ERROR_MESSAGE |} ∧
      ∀ parseFloat c ident randomUUID today s,
        let s' := handleAppraisal_then parseFloat c ident randomUUID today
                    (Throws e) s in
        state s' = ERROR ∧ error s' = Some MARKET_ERROR_MESSAGE ∧
        report s' = report s
  | Returns _ => no_data JSON_parse gateway = false
  end.
Proof.
  unfold getMarketValuation, no_data. cbv zeta.
  destruct gateway as [response|e]; [|done].
  destruct (text response) as [[|c t]|]; try done.
  by destruct (JSON_parse (c :: t)).
Qed.

End ValuationFacts.

Section ValuationExamples.

Import Gemini App Samples.

Lemma currency_force_set_witness :
  member
    (VObj [(js "currency", VStr (js "USD")); (js "sources", VArr [])])
    (js "currency") = Some (VStr (js "USD")) ∧
  ∀ parseFloat c ident randomUUID today s,
    Types.marketData <$>
      report (handleAppraisal_then parseFloat c ident randomUUID today
                (Returns (VObj [(js "currency", VStr (js "USD"));
                                (js "sources", VArr [])])) s)
    = Some (VObj [(js "currency", VStr (js "USD")); (js "sources", VArr [])]).
Proof.
  apply (currency_force_set JSON_parse_samples
           (Returns {| text := Some hkd_text; candidates := None |})
           (js "USD")).
  reflexivity.
Defined.

(** Eight citations in, the first five out. *)
Example source_cap_8 :
  getMarketValuation JSON_parse_samples (Returns response_8) (Some (js "USD"))
  = Returns (VObj [(js "currency", VStr (js "USD"));
                   (js "sources",
                    VArr [cited "1"; cited "2"; cited "3"; cited "4";
                          cited "5"])]).
Proof. reflexivity. Qed.

Lemma source_cap_witness :
  ∃ response kept,
    Returns response_8 = Returns response ∧
    member (VObj [(js "currency", VStr (js "USD"));
                  (js "sources",
                   VArr [cited "1"; cited "2"; cited "3"; cited "4";
                         cited "5"])])
      (js "sources") = Some (VArr kept) ∧
    kept = take 5 (sources_of response) ∧
    length kept ≤ 5 ∧
    (5 < length (sources_of response) → length kept = 5).
Proof.
  apply (source_cap JSON_parse_samples (Returns response_8) (Some (js "USD"))).
  reflexivity.
Defined.

(** C8, as the specification states it, fails: a response with an average
    price and none of the other required fields parses, the valuation
    returns market data built from it, and the workflow shows a report. *)
Lemma incomplete_response_yields_report :
  JSON_parse_samples incomplete_text = Some incomplete_data ∧
  missing_required incomplete_data = true ∧
  getMarketValuation JSON_parse_samples (Returns incomplete_response)
    (Some (js "HKD"))
  = Returns (VObj [(js "averagePrice", VNum (num 60000));
                   (js "currency", VStr (js "HKD"));
                   (js "sources", VArr [])]) ∧
  let s' :=
    handleAppraisal_then parseFloat_50000 two_saved omega (js "u1")
      (js "2024/1/30")
      (getMarketValuation JSON_parse_samples (Returns incomplete_response)
         (Some (js "HKD")))
      (setState SEARCHING_MARKET two_saved) in
  state s' = REPORT_READY ∧ state s' ≠ ERROR ∧ is_Some (report s') ∧
  error s' = None.
Proof. repeat split; try reflexivity; try discriminate. by eexists. Qed.

End ValuationExamples.

(** ** Best-cover reordering *)

Section Reordering.

Import Gemini App Samples.

Context {A : Type}.

Lemma filter_index_all (p : nat → bool) i0 (l : list A) :
  (∀ i, i0 ≤ i → p i = true) → filter_index p i0 l = l.
Proof.
  revert i0. induction l as [|x l IH]; intros i0 Hp; simpl; [done|].
  rewrite Hp by lia. f_equal. apply IH. intros i Hi. apply Hp. lia.
Qed.

(** Dropping the one index [i0 + n] from a list whose indices start at
    [i0] deletes its [n]-th element. *)
Lemma filter_index_delete (l : list A) i0 n :
  filter_index (λ i, bool_decide (Z.of_nat i ≠ Z.of_nat (i0 + n))) i0 l
  = delete n l.
Proof.
  revert i0 n. induction l as [|x l IH]; intros i0 n; simpl; [done|].
  destruct n as [|n]; simpl.
  - rewrite bool_decide_eq_false_2 by (intros H; apply H; f_equal; lia).
    apply filter_index_all. intros i Hi. apply bool_decide_eq_true_2. lia.
  - rewrite bool_decide_eq_true_2 by lia. f_equal.
    replace (i0 + S n) with (S i0 + n) by lia. apply IH.
Qed.

End Reordering.

Section ReorderingFacts.

Import Gemini App Samples.

(** C2. Best-cover reordering: after a successful identification over the
    image list [L], if the returned index [k] satisfies [0 ≤ k < length L]
    the images are [L[k]] followed by the elements before [k] and the
    elements after [k], in their order; if the index is absent, negative or
    not below the length, the images are what they were. *)
Theorem best_cover_reordering (L : list jstring) result s :
  let s' := analyzeImage_then (Some L) (Returns result) s in
  match bestImageIndex result with
  | Some k =>
      if decide (0 ≤ k < Z.of_nat (length L))%Z
      then ∃ x, L !! Z.to_nat k = Some x ∧
                images s' = x :: take (Z.to_nat k) L ++ drop (S (Z.to_nat k)) L
      else images s' = images s
  | None => images s' = images s
  end.
Proof.
  unfold analyzeImage_then. destruct (bestImageIndex result) as [k|]; [|done].
  case_decide as Hk.
  - rewrite (proj2 (Z.leb_le 0 k)), (proj2 (Z.ltb_lt k _)) by lia. simpl.
    destruct (lookup_lt_is_Some_2 L (Z.to_nat k)) as [x Hx]; [lia|].
    exists x. split; [done|].
    rewrite (list_lookup_total_correct _ _ _ Hx). f_equal.
    rewrite <- delete_take_drop.
    rewrite <- (filter_index_delete L 0 (Z.to_nat k)).
    simpl. by rewrite Z2Nat.id by lia.
  - destruct (0 <=? k)%Z eqn:E1; destruct (k <? Z.of_nat (length L))%Z eqn:E2;
      try done. apply Z.leb_le in E1. apply Z.ltb_lt in E2. lia.
Qed.

(** The upload callback stores the list it hands to [analyzeImage], so
    "unchanged" is that list. *)
Lemma upload_then_images base64Images s :
  images (handleImageUpload_then base64Images s).1 = base64Images ∧
  (handleImageUpload_then base64Images s).2 =
    [IdentifyWatchFromImage ((λ img, split 44%N img !! 1) <$> base64Images)].
Proof. done. Qed.

Example reorder_ABC_1 s :
  images (analyzeImage_then (Some [js "A"; js "B"; js "C"])
            (Returns (with_index (Some 1%Z))) s)
  = [js "B"; js "A"; js "C"].
Proof. reflexivity. Qed.

Example reorder_ABC_5 s :
  images (analyzeImage_then (Some [js "A"; js "B"; js "C"])
            (Returns (with_index (Some 5%Z))) s)
  = images s.
Proof. reflexivity. Qed.

Example reorder_ABC_negative s :
  images (analyzeImage_then (Some [js "A"; js "B"; js "C"])
            (Returns (with_index (Some (-1)%Z))) s)
  = images s.
Proof. reflexivity. Qed.

End ReorderingFacts.

(** ** The collection store *)

Section CollectionFacts.

Import Gemini App Samples.

Variable JSON_stringify : list AppraisalReport → jstring.

Lemma existsb_id (i : jstring) coll :
  existsb (λ item : AppraisalReport, bool_decide (id item = i)) coll = true
  ↔ i ∈ (id <$> coll).
Proof.
  rewrite existsb_exists, list_elem_of_fmap. split.
  - intros (x & Hx%list_elem_of_In & E%bool_decide_eq_true). eauto.
  - intros (x & -> & Hx%list_elem_of_In). exists x. split; [done|].
    by apply bool_decide_eq_true.
Qed.

(** C3. Append-if-absent: when the collection holds a record with the
    report's id, saving the report changes nothing (collection, persisted
    slot and the rest of the state are what they were); otherwise the
    report becomes the first record of the collection and the whole new
    collection is written to the persisted slot. *)
Theorem append_if_absent newReport s :
  let s' := handleSaveToCollection JSON_stringify newReport s in
  if decide (id newReport ∈ (id <$> collection s))
  then s' = s
  else collection s' = newReport :: collection s ∧
       horology_collection s' =
         Some (JSON_stringify (newReport :: collection s)).
Proof.
  unfold handleSaveToCollection. case_decide as H.
  - apply existsb_id in H. by rewrite H.
  - destruct (existsb _ _) eqn:E; [by apply existsb_id in E|done].
Qed.

Lemma filter_id_absent (i : jstring) (coll : list AppraisalReport) :
  i ∉ (id <$> coll) → filter (λ item, id item ≠ i) coll = coll.
Proof.
  induction coll as [|x coll IH]; [done|]. rewrite fmap_cons, not_elem_of_cons.
  intros [Hx Hc]. rewrite filter_cons_True by done. f_equal. by apply IH.
Qed.

Lemma filter_id_present (i : jstring) (coll : list AppraisalReport) :
  NoDup (id <$> coll) → i ∈ (id <$> coll) →
  ∃ l1 r l2, coll = l1 ++ r :: l2 ∧ id r = i ∧
             filter (λ item, id item ≠ i) coll = l1 ++ l2 ∧
             i ∉ (id <$> (l1 ++ l2)).
Proof.
  intros Hnd (r & -> & (l1 & l2 & ->)%list_elem_of_split)%list_elem_of_fmap.
  exists l1, r, l2. rewrite fmap_app, fmap_cons in Hnd.
  apply NoDup_app in Hnd as (_ & H1 & Hnd). apply NoDup_cons in Hnd as [H2 _].
  assert (id r ∉ (id <$> l1)) as H1'.
  { intros Hin. apply (H1 _ Hin). by left. }
  repeat split.
  - rewrite filter_app, filter_cons_False by (intros Hne; by apply Hne).
    by rewrite !filter_id_absent.
  - rewrite fmap_app, elem_of_app. intros [?|?]; [by apply H1'|by apply H2].
Qed.

(** C4. Remove-by-id: the collection after the removal is written to the
    persisted slot; removing an id that no record has leaves the
    collection as it was; removing the id of a record, ids being unique,
    gives the collection without that record and with the others in their
    order: one record fewer, none with that id. *)
Theorem remove_by_id i s :
  let s' := handleDeleteFromCollection JSON_stringify i s in
  horology_collection s' = Some (JSON_stringify (collection s')) ∧
  (i ∉ (id <$> collection s) → collection s' = collection s) ∧
  (NoDup (id <$> collection s) → i ∈ (id <$> collection s) →
   S (length (collection s')) = length (collection s) ∧
   (i ∉ (id <$> collection s')) ∧
   ∃ l1 r l2, collection s = l1 ++ r :: l2 ∧ id r = i ∧
              collection s' = l1 ++ l2).
Proof.
  simpl. split; [done|]. split.
  - apply filter_id_absent.
  - intros Hnd Hin.
    destruct (filter_id_present i _ Hnd Hin) as (l1 & r & l2 & E & Hr & -> & Hni).
    rewrite E, !length_app. simpl. split; [lia|]. split; [done|].
    by exists l1, r, l2.
Qed.

End CollectionFacts.

Section CollectionExamples.

Import Gemini App Samples.

Example save_present :
  handleSaveToCollection stringify_ids (report_of "b") two_saved = two_saved.
Proof. reflexivity. Qed.

Example save_absent :
  collection (handleSaveToCollection stringify_ids (report_of "c") two_saved)
  = [report_of "c"; report_of "a"; report_of "b"].
Proof. reflexivity. Qed.

Lemma remove_by_id_witness :
  (collection (handleDeleteFromCollection stringify_ids (js "z") two_saved)
   = collection two_saved) ∧
  let s' := handleDeleteFromCollection stringify_ids (js "a") two_saved in
  S (length (collection s')) = length (collection two_saved) ∧
  (js "a" ∉ (id <$> collection s')) ∧
  ∃ l1 r l2, collection two_saved = l1 ++ r :: l2 ∧ id r = js "a" ∧
             collection s' = l1 ++ l2.
Proof.
  split.
  - apply (remove_by_id stringify_ids (js "z") two_saved).
    apply (bool_decide_unpack _). vm_compute. exact I.
  - apply (remove_by_id stringify_ids (js "a") two_saved).
    + apply (bool_decide_unpack _). vm_compute. exact I.
    + apply (bool_decide_unpack _). vm_compute. exact I.
Defined.

End CollectionExamples.

(** ** Image intake and navigation *)

Section WorkflowFacts.

Import Gemini App Samples.

(** C7. Rejection at intake: a batch of more than three files changes
    nothing in the state (from Idle the state stays Idle), shows the
    notice, and asks for nothing else: no file is read and the
    identification gateway is not called. *)
Theorem upload_rejected files s :
  3 < length files →
  let '(s', cmds) := handleImageUpload (Some files) s in
  s' = s ∧ cmds = [Alert MAX_PHOTOS_NOTICE] ∧
  (state s = IDLE → state s' = IDLE) ∧
  ∀ imgs, IdentifyWatchFromImage imgs ∉ cmds.
Proof.
  intros H. unfold handleImageUpload.
  rewrite (proj2 (Nat.ltb_lt 0 _)), (proj2 (Nat.ltb_lt 3 _)) by lia.
  repeat split; [done|]. intros imgs [=]%list_elem_of_singleton.
Qed.

Lemma upload_rejected_witness :
  let '(s', cmds) := handleImageUpload (Some four_files) (initial None) in
  s' = initial None ∧ cmds = [Alert MAX_PHOTOS_NOTICE] ∧
  (state (initial None) = IDLE → state s' = IDLE) ∧
  ∀ imgs, IdentifyWatchFromImage imgs ∉ cmds.
Proof. apply (upload_rejected four_files (initial None)). simpl. lia. Defined.

(** Up to three files are read, and the reading leads to the gateway. *)
Example upload_accepted :
  handleImageUpload (Some [Blob []; Blob []]) (initial None)
  = (initial None, [ReadAsDataURL [Blob []; Blob []]]).
Proof. reflexivity. Qed.

(** C9, as the code has it. Navigating home from the collection list goes
    to the report if one is active, else to the confirmed identity if one
    is active, else resets; navigating home from the detail view always
    resets.  A reset ends in Idle with images, price, identity, market
    data, report and error cleared. *)
Theorem navigate_home s :
  state s = VIEWING_COLLECTION ∨ state s = VIEWING_COLLECTION_DETAIL →
  let s' := handleNavigate view_home s in
  match state s with
  | VIEWING_COLLECTION_DETAIL => s' = resetApp s
  | _ =>
      match report s, identity s with
      | Some _, _ => s' = setState REPORT_READY s
      | None, Some _ => s' = setState IDENTITY_CONFIRMED s
      | None, None => s' = resetApp s
      end
  end ∧
  state (resetApp s) = IDLE ∧ images (resetApp s) = [] ∧
  purchasePrice (resetApp s) = [] ∧ identity (resetApp s) = None ∧
  marketData (resetApp s) = None ∧ report (resetApp s) = None ∧
  error (resetApp s) = None.
Proof.
  intros Hs. unfold handleNavigate.
  destruct Hs as [-> | ->]; simpl.
  - by destruct (report s) as [r|], (identity s) as [i|].
  - by rewrite !andb_false_r.
Qed.

Lemma navigate_home_witness :
  handleNavigate view_home collection_with_identity
  = setState IDENTITY_CONFIRMED collection_with_identity ∧
  state (resetApp collection_with_identity) = IDLE ∧
  images (resetApp collection_with_identity) = [] ∧
  purchasePrice (resetApp collection_with_identity) = [] ∧
  identity (resetApp collection_with_identity) = None ∧
  marketData (resetApp collection_with_identity) = None ∧
  report (resetApp collection_with_identity) = None ∧
  error (resetApp collection_with_identity) = None.
Proof.
  apply (navigate_home collection_with_identity). left. reflexivity.
Defined.

(** C9, as the specification states it, fails: from the detail view with a
    confirmed identity the code resets to Idle, where the specification's
    words give IdentityConfirmed. *)
Lemma navigate_home_from_detail_resets :
  state detail_with_identity = VIEWING_COLLECTION_DETAIL ∧
  is_Some (identity detail_with_identity) ∧
  spec_home_target detail_with_identity = IDENTITY_CONFIRMED ∧
  state (handleNavigate view_home detail_with_identity) = IDLE ∧
  state (handleNavigate view_home detail_with_identity)
    ≠ spec_home_target detail_with_identity.
Proof. repeat split; try reflexivity; try discriminate. by eexists. Qed.

End WorkflowFacts.

(** ** A whole session *)

Section Session.

Import Gemini App Samples.

Example split_data_url :
  split 44%N (js "data:image/png;base64,QUJD") !! 1 = Some (js "QUJD").
Proof. reflexivity. Qed.

(** Two images are uploaded, the gateway designates the second as cover,
    the user enters a price and the valuation succeeds. *)
Example upload_identify_appraise :
  let s0 := initial None in
  let uploaded := [js "data:a,QQ"; js "data:b,Qg"] in
  let '(s1, cmds1) := handleImageUpload (Some [Blob []; Blob []]) s0 in
  let '(s2, cmds2) := handleImageUpload_then uploaded s1 in
  let s3 := analyzeImage_then (Some uploaded) (Returns omega) s2 in
  let s4 := setPurchasePrice (js "50000") s3 in
  let '(s5, cmds5) := handleAppraisal parseFloat_50000 s4 in
  let settled :=
    getMarketValuation JSON_parse_samples (Returns response_8)
      (Some (currency s4)) in
  let s6 :=
    handleAppraisal_then parseFloat_50000 s4 omega (js "u1") (js "2024/1/30")
      settled s5 in
  cmds1 = [ReadAsDataURL [Blob []; Blob []]] ∧
  state s2 = ANALYZING_IMAGE ∧
  cmds2 = [IdentifyWatchFromImage [Some (js "QQ"); Some (js "Qg")]] ∧
  state s3 = IDENTITY_CONFIRMED ∧
  images s3 = [js "data:b,Qg"; js "data:a,QQ"] ∧
  cmds5 = [GetMarketValuation omega (num 50000) (js "HKD")] ∧
  state s5 = SEARCHING_MARKET ∧
  state s6 = REPORT_READY ∧
  (Types.imageUrls <$> report s6) = Some [js "data:b,Qg"; js "data:a,QQ"] ∧
  (id <$> report s6) = Some (js "u1").
Proof. repeat split. Qed.

End Session.

(* ================================================================== *)
(** * Further properties of the code *)
(* ================================================================== *)

(** ** Keys of a property list *)

Section Keys.

Implicit Types (k : jstring) (v : value) (ps : props_t).

Lemma keys_define k v ps :
  (define k v ps).*1 = if decide (k ∈ ps.*1) then ps.*1 else ps.*1 ++ [k].
Proof.
  induction ps as [|[k' v'] ps IH]; [done|]. cbn [define].
  destruct (decide (k = k')) as [->|Hne]; rewrite !fmap_cons; cbn [fst].
  - by rewrite decide_True by left.
  - rewrite IH. destruct (decide (k ∈ ps.*1)) as [Hin|Hin].
    + by rewrite decide_True by (by right).
    + rewrite decide_False; [done|]. rewrite elem_of_cons. by intros [?|?].
Qed.

(** Writing a property removes no key and moves none. *)
Lemma keys_define_prefix k v ps : ps.*1 `prefix_of` (define k v ps).*1.
Proof.
  rewrite keys_define. case_decide; [done|]. by apply prefix_app_r.
Qed.

End Keys.

(** ** The mount effect and the migration *)

Section MountFacts.

Import Migration Mount Samples MoreSamples.

Variable JSON_parse : jstring → option value.

Lemma mapM_migrate_current items :
  Forall (λ r, is_current r = true) items →
  mapM migrate_item items = Some items.
Proof.
  intros H. apply mapM_Some. induction H; constructor; [|done].
  by apply is_current_fixed.
Qed.

(** X1. When the mount effect sets the collection, the slot held a
    non-empty text that parses to an array, and the collection has one
    record per element of that array, in the same order, each the
    migration of its element and each of the current shape. *)
Theorem load_keeps_every_record saved v :
  loadCollection JSON_parse saved = Some v →
  ∃ t items l,
    saved = Some t ∧ JSON_parse t = Some (VArr items) ∧ v = VArr l ∧
    length l = length items ∧
    Forall2 (λ item r, migrate_item item = Some r ∧ is_current r = true)
      items l.
Proof.
  unfold loadCollection. destruct saved as [[|c t]|]; try done.
  destruct (JSON_parse (c :: t)) as [[| | | | |items|]|] eqn:E; try done.
  cbn [mbind option_bind migratedData].
  destruct (mapM migrate_item items) as [l|] eqn:Em; [|done].
  intros [= <-]. exists (c :: t), items, l. repeat split; try done.
  - apply mapM_Some in Em. symmetry. by eapply Forall2_length.
  - apply mapM_Some in Em. eapply Forall2_impl; [exact Em|].
    intros x y Hxy. split; [done|]. by apply (migrate_item_current x).
Qed.

(** X2. One record whose market data cannot be read keeps the whole
    collection from loading: the migration throws on it, the [catch] block
    swallows the error, and [setCollection] is not called for any record. *)
Theorem load_blocked_by_one_record t items item :
  JSON_parse t = Some (VArr items) →
  item ∈ items →
  has_marketData item = false →
  loadCollection JSON_parse (Some t) = None.
Proof.
  intros Hp Hin Hmd. unfold loadCollection. destruct t as [|c t]; [done|].
  rewrite Hp. cbn [mbind option_bind migratedData].
  destruct (mapM migrate_item items) as [l|] eqn:Em; [|done].
  apply mapM_Some in Em.
  apply list_elem_of_lookup in Hin as [i Hi].
  destruct (Forall2_lookup_l _ _ _ _ _ Em Hi) as (r & _ & Hr).
  by rewrite migrate_item_throws in Hr.
Qed.

(** X3. A slot whose records all have the current shape loads as it is:
    the migration changes no record, adds no key and reorders none. *)
Theorem load_current_unchanged t items :
  t ≠ [] →
  JSON_parse t = Some (VArr items) →
  Forall (λ r, is_current r = true) items →
  loadCollection JSON_parse (Some t) = Some (VArr items).
Proof.
  intros Ht Hp Hc. unfold loadCollection. destruct t as [|c t]; [done|].
  rewrite Hp. cbn [mbind option_bind migratedData].
  by rewrite mapM_migrate_current.
Qed.

(** The steps of [migrate_item] on an object, one hypothesis per read. *)
Lemma migrate_item_steps ps r :
  migrate_item (VObj ps) = Some r →
  ∃ u p c cu sr,
    (if truthy (default VUndefined (lookup_prop k_imageUrls ps))
     then default VUndefined (lookup_prop k_imageUrls ps)
     else if truthy (default VUndefined (lookup_prop k_imageUrl ps))
          then VArr [default VUndefined (lookup_prop k_imageUrl ps)]
          else VArr []) = u ∧
    member (default VUndefined (lookup_prop k_marketData ps)) k_pros = Some p ∧
    member (default VUndefined (lookup_prop k_marketData ps)) k_cons = Some c ∧
    member (default VUndefined (lookup_prop k_marketData ps)) k_currency
      = Some cu ∧
    member (default VUndefined (lookup_prop k_marketData ps)) k_priceSource
      = Some sr ∧
    r = VObj (define k_marketData
                (VObj (define k_priceSource
                         (or_else sr (VStr (js "Market Data")))
                         (define k_currency (or_else cu (VStr (js "HKD")))
                            (define k_cons (or_else c (VArr []))
                               (define k_pros (or_else p (VArr []))
                                  (own_props
                                     (default VUndefined
                                        (lookup_prop k_marketData ps))))))))
                (define k_imageUrls u ps)).
Proof.
  intros H. unfold migrate_item in H. rewrite !member_obj in H.
  cbn [mbind option_bind] in H.
  set (md := default VUndefined (lookup_prop k_marketData ps)) in *.
  destruct (if truthy _ then _ else _) as [u|] eqn:Eu;
    cbn [mbind option_bind] in H; [|done].
  destruct (member md k_pros) as [p|] eqn:Ep;
    cbn [mbind option_bind] in H; [|done].
  destruct (member md k_cons) as [c|] eqn:Ec;
    cbn [mbind option_bind] in H; [|done].
  destruct (member md k_currency) as [cu|] eqn:Ecu;
    cbn [mbind option_bind] in H; [|done].
  destruct (member md k_priceSource) as [sr|] eqn:Es;
    cbn [mbind option_bind] in H; [|done].
  apply (inj Some) in H. exists u, p, c, cu, sr.
  repeat split; try done.
  destruct (truthy (default VUndefined (lookup_prop k_imageUrls ps)));
    by injection Eu as <-.
Qed.

(** X4. The migration touches two fields of a record and four fields of
    its market data, and nothing else: every other field keeps its value,
    and no key is removed or moved, in the record and in its market
    data. *)
Theorem migration_keeps_other_fields item r :
  migrate_item item = Some r →
  ∃ ps ps' md m',
    item = VObj ps ∧ r = VObj ps' ∧
    member item k_marketData = Some md ∧
    lookup_prop k_marketData ps' = Some (VObj m') ∧
    ps.*1 `prefix_of` ps'.*1 ∧
    (own_props md).*1 `prefix_of` m'.*1 ∧
    (∀ k, k ≠ k_imageUrls → k ≠ k_marketData →
          lookup_prop k ps' = lookup_prop k ps) ∧
    (∀ k, k ∉ [k_pros; k_cons; k_currency; k_priceSource] →
          lookup_prop k m' = lookup_prop k (own_props md)).
Proof.
  intros H. destruct item as [| | | | | |ps]; try (by cbv in H).
  apply migrate_item_steps in H as (u & p & c & cu & sr & _ & _ & _ & _ & _ & ->).
  eexists ps, _, _, _. split; [done|]. split; [done|]. split; [done|].
  split; [by rewrite lookup_define_eq|].
  split. { etrans; apply keys_define_prefix. }
  split. { etrans; [|apply keys_define_prefix].
           etrans; [|apply keys_define_prefix].
           etrans; apply keys_define_prefix. }
  split.
  - intros k H1 H2. by rewrite !lookup_define_ne.
  - intros k Hk. rewrite !not_elem_of_cons in Hk.
    destruct Hk as (?&?&?&?&_). by rewrite !lookup_define_ne.
Qed.

(** X5. What the migrated record reads on the fields the migration
    writes: the image list is the old one when it is truthy, else the
    legacy single image wrapped in a list when that is truthy, else the
    empty list; pros and cons are the old ones when truthy, else empty; the
    currency is the old one when truthy, else HKD; the price source is the
    old one when truthy, else "Market Data". *)
Theorem migration_field_values item r :
  migrate_item item = Some r →
  ∃ md md',
    member item k_marketData = Some md ∧
    member r k_marketData = Some md' ∧
    (∀ imageUrls imageUrl,
       member item k_imageUrls = Some imageUrls →
       member item k_imageUrl = Some imageUrl →
       member r k_imageUrls =
         Some (if truthy imageUrls then imageUrls
               else if truthy imageUrl then VArr [imageUrl] else VArr [])) ∧
    (∀ v, member md k_pros = Some v →
          member md' k_pros = Some (or_else v (VArr []))) ∧
    (∀ v, member md k_cons = Some v →
          member md' k_cons = Some (or_else v (VArr []))) ∧
    (∀ v, member md k_currency = Some v →
          member md' k_currency = Some (or_else v (VStr (js "HKD")))) ∧
    (∀ v, member md k_priceSource = Some v →
          member md' k_priceSource
          = Some (or_else v (VStr (js "Market Data")))).
Proof.
  intros H. destruct item as [| | | | | |ps]; try (by cbv in H).
  apply migrate_item_steps in H as (u & p & c & cu & sr & Eu & Ep & Ec & Ecu & Es & ->).
  eexists _, (VObj _). split; [done|].
  split. { by rewrite member_obj, lookup_define_eq. }
  split.
  { rewrite !member_obj. intros iu i [= <-] [= <-].
    by rewrite lookup_define_ne, lookup_define_eq, Eu by key_ne. }
  repeat split; intros v Hv; simplify_eq; rewrite member_obj.
  - by rewrite !lookup_define_ne, lookup_define_eq by key_ne.
  - by rewrite !lookup_define_ne, lookup_define_eq by key_ne.
  - by rewrite !lookup_define_ne, lookup_define_eq by key_ne.
  - by rewrite lookup_define_eq.
Qed.

(** X6. The migration makes the pros and the cons of a legacy record
    listable by the certificate (missing ones become empty lists), and
    leaves its sources as they are: a record saved without sources still
    has none after the migration, and the certificate throws on it. *)
Theorem migration_repairs_lists_but_not_sources item r m md' :
  migrate_item item = Some r →
  member item k_marketData = Some (VObj m) →
  member r k_marketData = Some md' →
  (lookup_prop k_pros m = None → ReportView.mapped md' k_pros = Some []) ∧
  (lookup_prop k_cons m = None → ReportView.mapped md' k_cons = Some []) ∧
  ReportView.mapped md' (js "sources")
  = ReportView.mapped (VObj m) (js "sources").
Proof.
  intros H Hm Hm'. destruct item as [| | | | | |ps]; try (by cbv in H).
  apply migrate_item_steps in H as (u & p & c & cu & sr & _ & Ep & Ec & _ & _ & ->).
  rewrite member_obj in Hm. apply (inj Some) in Hm. rewrite Hm in *.
  rewrite member_obj, lookup_define_eq in Hm'.
  cbn [default from_option Datatypes.id] in Hm'.
  apply (inj Some) in Hm'. subst md'. rewrite member_obj in Ep, Ec.
  apply (inj Some) in Ep, Ec. subst p c.
  unfold ReportView.mapped. rewrite !member_obj. repeat split.
  - intros ->. by rewrite !lookup_define_ne, lookup_define_eq by key_ne.
  - intros ->. by rewrite !lookup_define_ne, lookup_define_eq by key_ne.
  - by rewrite !lookup_define_ne by key_ne.
Qed.

End MountFacts.

Section MountExamples.

Import Migration Mount Samples MoreSamples.

Lemma load_keeps_every_record_witness :
  ∃ t items l,
    Some slot_legacy = Some t ∧
    JSON_parse_slots t = Some (VArr items) ∧
    VArr [VObj [(js "id", VStr (js "r1"));
                (js "imageUrl", VStr (js "data:a"));
                (js "marketData",
                 VObj [(js "averagePrice", VNum (num 60000));
                       (js "pros", VArr []);
                       (js "cons", VArr []);
                       (js "currency", VStr (js "HKD"));
                       (js "priceSource", VStr (js "Market Data"))]);
                (js "imageUrls", VArr [VStr (js "data:a")])]] = VArr l ∧
    length l = length items ∧
    Forall2 (λ item r, migrate_item item = Some r ∧ is_current r = true)
      items l.
Proof.
  apply (load_keeps_every_record JSON_parse_slots (Some slot_legacy)).
  reflexivity.
Defined.

Lemma load_blocked_by_one_record_witness :
  loadCollection JSON_parse_slots (Some slot_blocked) = None.
Proof.
  apply (load_blocked_by_one_record JSON_parse_slots slot_blocked
           [legacy_record; stray_record] stray_record).
  - reflexivity.
  - right. left.
  - reflexivity.
Defined.

Lemma load_current_unchanged_witness :
  loadCollection JSON_parse_slots (Some slot_current)
  = Some (VArr [current_record]).
Proof.
  apply (load_current_unchanged JSON_parse_slots slot_current [current_record]).
  - discriminate.
  - reflexivity.
  - repeat constructor.
Defined.

Lemma migration_keeps_other_fields_witness :
  ∃ ps ps' md m',
    legacy_record = VObj ps ∧
    VObj [(js "id", VStr (js "r1"));
          (js "imageUrl", VStr (js "data:a"));
          (js "marketData",
           VObj [(js "averagePrice", VNum (num 60000));
                 (js "pros", VArr []);
                 (js "cons", VArr []);
                 (js "currency", VStr (js "HKD"));
                 (js "priceSource", VStr (js "Market Data"))]);
          (js "imageUrls", VArr [VStr (js "data:a")])] = VObj ps' ∧
    member legacy_record k_marketData = Some md ∧
    lookup_prop k_marketData ps' = Some (VObj m') ∧
    ps.*1 `prefix_of` ps'.*1 ∧
    (own_props md).*1 `prefix_of` m'.*1 ∧
    (∀ k, k ≠ k_imageUrls → k ≠ k_marketData →
          lookup_prop k ps' = lookup_prop k ps) ∧
    (∀ k, k ∉ [k_pros; k_cons; k_currency; k_priceSource] →
          lookup_prop k m' = lookup_prop k (own_props md)).
Proof. apply (migration_keeps_other_fields legacy_record). reflexivity. Defined.

Lemma migration_field_values_witness :
  ∃ md md',
    member legacy_record k_marketData = Some md ∧
    member
      (VObj [(js "id", VStr (js "r1"));
             (js "imageUrl", VStr (js "data:a"));
             (js "marketData",
              VObj [(js "averagePrice", VNum (num 60000));
                    (js "pros", VArr []);
                    (js "cons", VArr []);
                    (js "currency", VStr (js "HKD"));
                    (js "priceSource", VStr (js "Market Data"))]);
             (js "imageUrls", VArr [VStr (js "data:a")])])
      k_marketData = Some md' ∧
    (∀ imageUrls imageUrl,
       member legacy_record k_imageUrls = Some imageUrls →
       member legacy_record k_imageUrl = Some imageUrl →
       member
         (VObj [(js "id", VStr (js "r1"));
                (js "imageUrl", VStr (js "data:a"));
                (js "marketData",
                 VObj [(js "averagePrice", VNum (num 60000));
                       (js "pros", VArr []);
                       (js "cons", VArr []);
                       (js "currency", VStr (js "HKD"));
                       (js "priceSource", VStr (js "Market Data"))]);
                (js "imageUrls", VArr [VStr (js "data:a")])])
         k_imageUrls =
         Some (if truthy imageUrls then imageUrls
               else if truthy imageUrl then VArr [imageUrl] else VArr [])) ∧
    (∀ v, member md k_pros = Some v →
          member md' k_pros = Some (or_else v (VArr []))) ∧
    (∀ v, member md k_cons = Some v →
          member md' k_cons = Some (or_else v (VArr []))) ∧
    (∀ v, member md k_currency = Some v →
          member md' k_currency = Some (or_else v (VStr (js "HKD")))) ∧
    (∀ v, member md k_priceSource = Some v →
          member md' k_priceSource
          = Some (or_else v (VStr (js "Market Data")))).
Proof. apply (migration_field_values legacy_record). reflexivity. Defined.

Lemma migration_repairs_lists_but_not_sources_witness :
  (lookup_prop k_pros [(js "averagePrice", VNum (num 60000))] = None →
   ReportView.mapped
     (VObj [(js "averagePrice", VNum (num 60000));
            (js "pros", VArr []);
            (js "cons", VArr []);
            (js "currency", VStr (js "HKD"));
            (js "priceSource", VStr (js "Market Data"))]) k_pros = Some []) ∧
  (lookup_prop k_cons [(js "averagePrice", VNum (num 60000))] = None →
   ReportView.mapped
     (VObj [(js "averagePrice", VNum (num 60000));
            (js "pros", VArr []);
            (js "cons", VArr []);
            (js "currency", VStr (js "HKD"));
            (js "priceSource", VStr (js "Market Data"))]) k_cons = Some []) ∧
  ReportView.mapped
    (VObj [(js "averagePrice", VNum (num 60000));
           (js "pros", VArr []);
           (js "cons", VArr []);
           (js "currency", VStr (js "HKD"));
           (js "priceSource", VStr (js "Market Data"))]) (js "sources")
  = ReportView.mapped (VObj [(js "averagePrice", VNum (num 60000))])
      (js "sources").
Proof.
  apply (migration_repairs_lists_but_not_sources legacy_record
           (VObj [(js "id", VStr (js "r1"));
                  (js "imageUrl", VStr (js "data:a"));
                  (js "marketData",
                   VObj [(js "averagePrice", VNum (num 60000));
                         (js "pros", VArr []);
                         (js "cons", VArr []);
                         (js "currency", VStr (js "HKD"));
                         (js "priceSource", VStr (js "Market Data"))]);
                  (js "imageUrls", VArr [VStr (js "data:a")])]));
    reflexivity.
Defined.

End MountExamples.

(** ** The two services *)

Section ServiceFacts.

Import Gemini Vision App Samples.

Variable JSON_parse : jstring → option value.

(** X7. The identification fails exactly when the gateway call throws, the
    response has no text or an empty one, or the text does not parse; the
    error is then the fixed one, and [analyzeImage] shows its message in the
    error state, leaving identity and images as they were.  Otherwise the
    result is what the text parses to, whatever fields it has. *)
Theorem identification_outcome gateway :
  match identifyWatchFromImage JSON_parse gateway with
  | Throws e =>
      no_data JSON_parse gateway = true ∧
      e = {| message := VISION_ERROR_MESSAGE |} ∧
      ∀ L s,
        let s' := analyzeImage_then L (Throws e) s in
        state s' = ERROR ∧ error s' = Some VISION_ERROR_MESSAGE ∧
        identity s' = identity s ∧ images s' = images s
  | Returns parsed =>
      no_data JSON_parse gateway = false ∧
      ∃ response, gateway = Returns response ∧
                  text response ≫= JSON_parse = Some parsed
  end.
Proof.
  unfold identifyWatchFromImage, no_data. cbv zeta.
  destruct gateway as [response|e]; [|done].
  destruct (text response) as [[|c t]|] eqn:Et; try done.
  destruct (JSON_parse (c :: t)) eqn:Ep; [|done].
  split; [done|]. exists response. split; [done|]. by rewrite Et.
Qed.

(** What [getMarketValuation] returns, with the text it parsed. *)
Lemma getMarketValuation_parsed gateway cur data :
  getMarketValuation JSON_parse gateway cur = Returns data →
  ∃ response t parsed,
    gateway = Returns response ∧ text response = Some t ∧
    JSON_parse t = Some parsed ∧
    data = VObj (define (js "sources") (VArr (slice_0_5 (sources_of response)))
                   (define (js "currency") (VStr (default (js "HKD") cur))
                      (own_props parsed))).
Proof.
  unfold getMarketValuation. cbv zeta.
  destruct gateway as [response|e]; [|done].
  destruct (text response) as [[|c t]|] eqn:Et; try done.
  destruct (JSON_parse (c :: t)) as [parsed|] eqn:E; [|done].
  intros [= <-]. by exists response, (c :: t), parsed.
Qed.

Lemma getMarketValuation_Throws gateway cur e :
  getMarketValuation JSON_parse gateway cur = Throws e →
  e = {| message := MARKET_ERROR_MESSAGE |}.
Proof.
  unfold getMarketValuation. cbv zeta.
  destruct gateway as [response|e']; [|by intros [= <-]].
  destruct (text response) as [[|c t]|]; try by intros [= <-].
  destruct (JSON_parse (c :: t)); [done|by intros [= <-]].
Qed.





Lemma list_sections_is_Some report :
  is_Some (ReportView.list_sections report) ↔
  is_Some (ReportView.mapped (Types.marketData report) (js "pros")) ∧
  is_Some (ReportView.mapped (Types.marketData report) (js "cons")) ∧
  is_Some (ReportView.mapped (Types.marketData report) (js "sources")).
Proof.
  unfold ReportView.list_sections.
  destruct (ReportView.mapped _ (js "pros")) as [p|]; simpl;
    [|split; [by intros [? [=]]|by intros [[? [=]] _]]].
  destruct (ReportView.mapped _ (js "cons")) as [c|]; simpl;
    [|split; [by intros [? [=]]|by intros (_ & [? [=]] & _)]].
  destruct (ReportView.mapped _ (js "sources")) as [l|]; simpl;
    [|split; [by intros [? [=]]|by intros (_ & _ & [? [=]])]].
  split; [by eauto|by eexists].
Qed.

Lemma mapped_is_Some ps k :
  is_Some (ReportView.mapped (VObj ps) k)
  ↔ ∃ l, lookup_prop k ps = Some (VArr l).
Proof.
  unfold ReportView.mapped. rewrite member_obj.
  destruct (lookup_prop k ps) as [[]|]; simpl; split;
    try (by intros [? [=]]); by eauto.
Qed.

(** X10. The lists of the certificate of a fresh report can be rendered
    exactly when the parsed response has an array of pros and an array of
    cons; the sources never stand in the way.  A response without pros or
    without cons gives a report whose certificate throws. *)
Theorem certificate_lists_after_valuation gateway cur data report :
  getMarketValuation JSON_parse gateway cur = Returns data →
  Types.marketData report = data →
  ∃ response t parsed,
    gateway = Returns response ∧ text response = Some t ∧
    JSON_parse t = Some parsed ∧
    (is_Some (ReportView.list_sections report) ↔
     ∃ p c, lookup_prop (js "pros") (own_props parsed) = Some (VArr p) ∧
            lookup_prop (js "cons") (own_props parsed) = Some (VArr c)).
Proof.
  intros (response & t & parsed & -> & Ht & Hp & ->)%getMarketValuation_parsed Hr.
  exists response, t, parsed. split; [done|]. split; [done|]. split; [done|].
  rewrite list_sections_is_Some, Hr, !mapped_is_Some.
  rewrite !(lookup_define_ne (js "pros")) by key_ne.
  rewrite !(lookup_define_ne (js "cons")) by key_ne.
  rewrite lookup_define_eq. split.
  - intros ([p Hpr] & [c Hc] & _). by exists p, c.
  - intros (p & c & Hpr & Hc).
    split; [by exists p|]. split; [by exists c|by eexists].
Qed.

End ServiceFacts.

Section ServiceExamples.

Import Gemini Vision App Samples.



Lemma certificate_lists_after_valuation_witness :
  ∃ response t parsed,
    Returns incomplete_response = Returns response ∧
    text response = Some t ∧
    JSON_parse_samples t = Some parsed ∧
    (is_Some
       (ReportView.list_sections
          {| id := js "u1"; date := js "2024/1/30"; imageUrls := [js "A"];
             Types.purchasePrice := num 50000; Types.identity := omega;
             Types.marketData :=
               VObj [(js "averagePrice", VNum (num 60000));
                     (js "currency", VStr (js "HKD"));
                     (js "sources", VArr [])] |}) ↔
     ∃ p c, lookup_prop (js "pros") (own_props parsed) = Some (VArr p) ∧
            lookup_prop (js "cons") (own_props parsed) = Some (VArr c)).
Proof.
  apply (certificate_lists_after_valuation JSON_parse_samples
           (Returns incomplete_response) (Some (js "HKD"))
           (VObj [(js "averagePrice", VNum (num 60000));
                  (js "currency", VStr (js "HKD"));
                  (js "sources", VArr [])])); reflexivity.
Defined.

(** The report built from the response with an average price and nothing
    else has no lists to render. *)
Example incomplete_report_has_no_lists :
  ReportView.list_sections
    {| id := js "u1"; date := js "2024/1/30"; imageUrls := [js "A"];
       Types.purchasePrice := num 50000; Types.identity := omega;
       Types.marketData :=
         VObj [(js "averagePrice", VNum (num 60000));
               (js "currency", VStr (js "HKD"));
               (js "sources", VArr [])] |} = None.
Proof. reflexivity. Qed.

End ServiceExamples.

(** ** The collection store, continued *)

Section StoreFacts.

Import Gemini App Render Samples.

Variable JSON_stringify : list AppraisalReport → jstring.

Lemma isSaved_spec r s : isSaved r s = true ↔ id r ∈ (id <$> collection s).
Proof. apply existsb_id. Qed.

(** X11. After [handleSaveToCollection] the report counts as saved,
    whether or not it was before, and saving it again changes nothing: the
    collection never gets the same report twice. *)
Theorem save_marks_saved r s :
  let s' := handleSaveToCollection JSON_stringify r s in
  isSaved r s' = true ∧
  handleSaveToCollection JSON_stringify r s' = s'.
Proof.
  simpl.
  assert (isSaved r (handleSaveToCollection JSON_stringify r s) = true) as H.
  { unfold handleSaveToCollection.
    destruct (existsb _ (collection s)) eqn:E; [done|].
    apply isSaved_spec. simpl. by left. }
  split; [done|]. unfold handleSaveToCollection at 1.
  by rewrite (H : existsb _ _ = true).
Qed.

(** X12. [handleDeleteFromCollection] removes every record with the given
    id, also when several records share it, and keeps every other record;
    a report with that id no longer counts as saved; deleting the same id
    again changes nothing. *)
Theorem delete_removes_every_match i s :
  let s' := handleDeleteFromCollection JSON_stringify i s in
  (∀ r, r ∈ collection s' ↔ r ∈ collection s ∧ id r ≠ i) ∧
  (∀ r, id r = i → isSaved r s' = false) ∧
  handleDeleteFromCollection JSON_stringify i s' = s'.
Proof.
  simpl. split; [|split].
  - intros r. rewrite list_elem_of_filter. tauto.
  - intros r Hr. apply not_true_is_false. rewrite isSaved_spec. simpl.
    rewrite list_elem_of_fmap. intros (x & Hx & [Hne _]%list_elem_of_filter).
    congruence.
  - unfold handleDeleteFromCollection, saveCollection. simpl.
    rewrite list_filter_filter.
    assert (filter (λ x, id x ≠ i ∧ id x ≠ i) (collection s)
            = filter (λ x, id x ≠ i) (collection s)) as ->; [|done].
    apply list_filter_iff. tauto.
Qed.

(** X13. Saving a report whose id is new and then deleting that id gives
    back the collection as it was, and the persisted slot holds it. *)
Theorem save_delete_round_trip r s :
  id r ∉ (id <$> collection s) →
  let s' := handleDeleteFromCollection JSON_stringify (id r)
              (handleSaveToCollection JSON_stringify r s) in
  collection s' = collection s ∧
  horology_collection s' = Some (JSON_stringify (collection s)).
Proof.
  intros Hr. unfold handleSaveToCollection.
  destruct (existsb _ _) eqn:E; [by apply existsb_id in E|].
  simpl. rewrite filter_cons_False by (intros H; by apply H).
  by rewrite filter_id_absent.
Qed.

Lemma save_NoDup r s :
  NoDup (id <$> collection s) →
  NoDup (id <$> collection (handleSaveToCollection JSON_stringify r s)).
Proof.
  intros H. unfold handleSaveToCollection.
  destruct (existsb _ _) eqn:E; [done|]. simpl. apply NoDup_cons.
  split; [|done]. intros Hin%existsb_id. congruence.
Qed.

Lemma delete_NoDup i s :
  NoDup (id <$> collection s) →
  NoDup (id <$> collection (handleDeleteFromCollection JSON_stringify i s)).
Proof.
  simpl. intros H. eapply sublist_NoDup; [exact H|].
  apply fmap_sublist, sublist_filter.
Qed.

End StoreFacts.

Section StoreExamples.

Import Gemini App Render Samples.

Lemma save_delete_round_trip_witness :
  let s' := handleDeleteFromCollection stringify_ids (id (report_of "c"))
              (handleSaveToCollection stringify_ids (report_of "c") two_saved) in
  collection s' = collection two_saved ∧
  horology_collection s' = Some (stringify_ids (collection two_saved)).
Proof.
  apply (save_delete_round_trip stringify_ids (report_of "c") two_saved).
  apply (bool_decide_unpack _). vm_compute. exact I.
Defined.

End StoreExamples.

(** ** Navigation, continued *)

Section NavigationFacts.

Import Gemini App Render Samples.

(** X14. Opening the collection and navigating home again leads to the
    report if one is active, else to the confirmed identity if one is
    active, else to a reset, whatever the state was before (a search in
    progress, for one, comes back as the price form).  From a shown
    report, and from a confirmed identity without report, the round trip
    gives back the state as it was. *)
Theorem collection_and_back s :
  let s' := handleNavigate view_home (handleNavigate view_collection s) in
  match report s, identity s with
  | Some _, _ => s' = setState REPORT_READY s
  | None, Some _ => s' = setState IDENTITY_CONFIRMED s
  | None, None => s' = resetApp s
  end ∧
  (state s = REPORT_READY → is_Some (report s) → s' = s) ∧
  (state s = IDENTITY_CONFIRMED → is_Some (identity s) → report s = None →
   s' = s).
Proof.
  destruct s as [st im pp cu idn md rp er co hc]. unfold handleNavigate. simpl.
  destruct rp as [r|], idn as [i|]; simpl; (split; [done|]); split;
    try (by intros _ [? [=]]); try (by intros -> _); try (by intros -> _ _);
    try (by intros _ _ [=]).
Qed.

Lemma collection_and_back_witness :
  handleNavigate view_home
    (handleNavigate view_collection
       (setState IDENTITY_CONFIRMED (setIdentity (Some omega) two_saved)))
  = setState IDENTITY_CONFIRMED (setIdentity (Some omega) two_saved).
Proof.
  apply (collection_and_back
           (setState IDENTITY_CONFIRMED (setIdentity (Some omega) two_saved)));
    [reflexivity|by eexists|reflexivity].
Defined.

(** X15. A saved report opened from the collection and left with its back
    button stays the active report: navigating home from the collection
    then shows it as an appraisal result, with the save button reflecting
    whether the collection holds its id, and whatever identification was
    in progress before is no longer shown. *)
Theorem back_then_home_shows_saved_report r s :
  let s' := handleNavigate view_home
              (detail_onReset (handleSelectFromCollection r s)) in
  s' = setState REPORT_READY (setReport (Some r) s) ∧
  main s' = [NewReport r (isSaved r s)].
Proof. destruct s as [? ? ? ? [?|] ? ? ? ? ?]; repeat split. Qed.

End NavigationFacts.

(** ** Image intake, continued *)

Section IntakeFacts.

Import Gemini App Render Samples MoreSamples.

Lemma split_no_sep sep s : sep ∉ s → split sep s = [s].
Proof.
  induction s as [|c s IH]; [done|]. rewrite not_elem_of_cons. intros [Hc Hs].
  simpl. rewrite decide_False by done. by rewrite IH.
Qed.

Lemma split_app_sep sep a b :
  sep ∉ a → split sep (a ++ sep :: b) = a :: split sep b.
Proof.
  induction a as [|c a IH]; simpl.
  - intros _. by rewrite decide_True.
  - rewrite not_elem_of_cons. intros [Hc Ha].
    rewrite decide_False by done. by rewrite IH.
Qed.

(** X16. What [img.split(',')[1]] gives on a data URL whose header has no
    comma: the payload when the payload has no comma either; the part of
    the payload before its first comma otherwise; and [undefined] when the
    string has no comma at all. *)
Theorem data_url_payload (header payload : jstring) :
  44%N ∉ header →
  44%N ∉ payload →
  split 44%N (header ++ 44%N :: payload) !! 1 = Some payload ∧
  split 44%N header !! 1 = None ∧
  ∀ rest, split 44%N (header ++ 44%N :: payload ++ 44%N :: rest) !! 1
          = Some payload.
Proof.
  intros Hh Hp. repeat split.
  - by rewrite split_app_sep, split_no_sep.
  - by rewrite split_no_sep.
  - intros rest. by rewrite split_app_sep, split_app_sep.
Qed.

Lemma data_url_payload_witness :
  split 44%N (png_header ++ 44%N :: js "QQ") !! 1 = Some (js "QQ") ∧
  split 44%N png_header !! 1 = None ∧
  ∀ rest, split 44%N (png_header ++ 44%N :: js "QQ" ++ 44%N :: rest) !! 1
          = Some (js "QQ").
Proof.
  apply (data_url_payload png_header (js "QQ"));
    apply (bool_decide_unpack _); vm_compute; exact I.
Defined.

(** X17. The callback that receives the data URLs stores them whole as the
    images and sends the gateway their payloads, one per image and in the
    same order, when headers and payloads have no comma. *)
Theorem upload_strips_headers (urls : list (jstring * jstring)) s :
  Forall (λ u, (44%N ∉ u.1) ∧ (44%N ∉ u.2)) urls →
  let full := (λ u, u.1 ++ 44%N :: u.2) <$> urls in
  images (handleImageUpload_then full s).1 = full ∧
  (handleImageUpload_then full s).2
  = [IdentifyWatchFromImage (Some <$> urls.*2)].
Proof.
  intros H. split; [done|]. unfold handleImageUpload_then, analyzeImage. simpl.
  do 2 f_equal. rewrite <- !list_fmap_compose.
  apply Forall_fmap_ext_1. eapply Forall_impl; [exact H|].
  intros [h p] [Hh Hp]. simpl in *. by rewrite split_app_sep, split_no_sep.
Qed.

Lemma upload_strips_headers_witness :
  let full := (λ u : jstring * jstring, u.1 ++ 44%N :: u.2)
                <$> [(png_header, js "QQ"); (png_header, js "Qg")] in
  images (handleImageUpload_then full (initial None)).1 = full ∧
  (handleImageUpload_then full (initial None)).2
  = [IdentifyWatchFromImage
       (Some <$> [(png_header, js "QQ"); (png_header, js "Qg")].*2)].
Proof.
  apply (upload_strips_headers
           [(png_header, js "QQ"); (png_header, js "Qg")] (initial None)).
  repeat constructor; apply (bool_decide_unpack _); vm_compute; exact I.
Defined.


End IntakeFacts.

(** ** What is shown *)

Section RenderFacts.

Import Gemini Vision App Render Samples.

(** X19. The page never shows two blocks at once, and shows none in four
    cases only: while an image is being analysed, for which the source has
    no block, and in the three states that need an identity or a report
    when that hook is empty. *)
Theorem main_shows_at_most_one_region s :
  length (main s) ≤ 1 ∧
  (main s = [] ↔
   state s = ANALYZING_IMAGE ∨
   (state s = IDENTITY_CONFIRMED ∧ identity s = None) ∨
   (state s = REPORT_READY ∧ report s = None) ∨
   (state s = VIEWING_COLLECTION_DETAIL ∧ report s = None)).
Proof.
  unfold main.
  destruct (state s), (identity s), (report s); simpl; split; try lia;
    split; try done; intuition (try discriminate; eauto).
Qed.

End RenderFacts.

(** ** Invariants of the component over time *)

Section EventLoopFacts.

Import Gemini Vision App Render EventLoop Samples.

Variable JSON_parse : jstring → option value.
Variable JSON_stringify : list AppraisalReport → jstring.
Variable parseFloat : jstring → number.

Local Abbreviation step := (step JSON_parse JSON_stringify parseFloat).
Local Abbreviation reachable :=
  (reachable JSON_parse JSON_stringify parseFloat).

(** What holds when the component is mounted and is kept by every event
    holds in every reachable world. *)
Lemma reachable_invariant slot loaded (P : World → Prop) :
  P (mounted slot loaded) →
  (∀ w w', P w → step w w' → P w') →
  ∀ w, reachable slot loaded w → P w.
Proof.
  intros H0 Hs. apply rtc_ind_r; [done|]. intros y z _ Hyz Hy. by eapply Hs.
Qed.

(** *** State and hooks agree *)

Lemma consistent_navigate view s : consistent s → consistent (handleNavigate view s).
Proof.
  intros (H1 & H2 & H3 & H4). destruct view; [|by repeat split].
  unfold handleNavigate.
  destruct (bool_decide (state s = VIEWING_COLLECTION)
            || bool_decide (state s = VIEWING_COLLECTION_DETAIL)); [|done].
  destruct (bool_decide (is_Some (report s)) && _) eqn:E1.
  { apply andb_true_iff in E1 as [E1%bool_decide_eq_true _]. by repeat split. }
  destruct (bool_decide (is_Some (identity s)) && _) eqn:E2.
  { apply andb_true_iff in E2 as [E2%bool_decide_eq_true _]. by repeat split. }
  by repeat split.
Qed.

Lemma consistent_analyzed L settled s :
  (∀ e, settled = Throws e → e = {| message := VISION_ERROR_MESSAGE |}) →
  consistent (analyzeImage_then L settled s).
Proof.
  intros He. destruct settled as [result|e].
  - by repeat split.
  - rewrite (He e eq_refl). repeat split; try done. intros _. by left.
Qed.

Lemma consistent_valuated c ident uuid today gateway s :
  consistent (handleAppraisal_then parseFloat c ident uuid today
              (getMarketValuation JSON_parse gateway (Some (currency c))) s).
Proof.
  destruct (getMarketValuation _ _ _) as [data|e] eqn:E.
  - by repeat split.
  - apply getMarketValuation_Throws in E as ->.
    repeat split; try done. intros _. by right.
Qed.

Lemma consistent_keep f s :
  state (f s) = state s → identity (f s) = identity s →
  report (f s) = report s → error (f s) = error s →
  consistent s → consistent (f s).
Proof. unfold consistent. intros -> -> -> ->. done. Qed.

Lemma consistent_step w w' :
  consistent (hooks w) → step w w' → consistent (hooks w').
Proof.
  intros Hc Hs. destruct Hs; cbn [hooks on].
  - by apply consistent_navigate.
  - by repeat split.
  - by repeat split.
  - by apply (consistent_keep (setPurchasePrice x)).
  - by apply (consistent_keep (setCurrency x)).
  - apply (consistent_keep (handleSaveToCollection JSON_stringify r)); try done;
      unfold handleSaveToCollection; by destruct (existsb _ _).
  - by apply (consistent_keep (handleDeleteFromCollection JSON_stringify i)).
  - by repeat split.
  - unfold handleImageUpload. by repeat case_match.
  - by repeat split.
  - by apply consistent_analyzed.
  - apply consistent_analyzed. by intros e [= <-].
  - unfold handleAppraisal. repeat case_match; try done; by repeat split.
  - apply consistent_valuated.
Qed.

Lemma consistent_invariant slot loaded w :
  reachable slot loaded w → consistent (hooks w).
Proof.
  apply (reachable_invariant slot loaded (λ w, consistent (hooks w))).
  - by repeat split.
  - intros. by eapply consistent_step.
Qed.



(** X27. In every reachable world an error state carries one of the two
    fixed messages of the services, and so does the error block of the
    page: the fallback texts of the handlers are never stored. *)
Theorem reachable_error_is_fixed slot loaded w :
  reachable slot loaded w →
  fixed_error (hooks w) ∧
  ∀ msg, ErrorPanel msg ∈ main (hooks w) →
         msg = Some VISION_ERROR_MESSAGE ∨ msg = Some MARKET_ERROR_MESSAGE.
Proof.
  intros (_ & _ & _ & H4)%consistent_invariant. split; [done|].
  intros msg. unfold main.
  destruct (state (hooks w)) eqn:Es; repeat case_match; simpl;
    rewrite ?elem_of_nil, ?list_elem_of_singleton; try done.
  intros [= ->]. by apply H4.
Qed.

(** *** The store *)

(** An event leaves collection and slot alone unless it is a save or a
    delete. *)
Lemma step_store w w' :
  step w w' →
  same_store (hooks w) (hooks w') ∨
  (∃ r, hooks w' = handleSaveToCollection JSON_stringify r (hooks w)) ∨
  (∃ i, hooks w' = handleDeleteFromCollection JSON_stringify i (hooks w)).
Proof.
  intros Hs. destruct Hs; cbn [hooks on]; try (left; by split).
  - left. destruct view; [|done]. unfold handleNavigate. by repeat case_match.
  - right; left. by eexists.
  - right; right. by eexists.
  - left. unfold handleImageUpload. by repeat case_match.
  - left. unfold analyzeImage_then. by repeat case_match.
  - left. unfold handleAppraisal. by repeat case_match.
  - left. unfold handleAppraisal_then. by case_match.
Qed.

(** X22. If the loaded collection has no two records with the same id,
    no reachable collection has: whichever reports are saved, in whichever
    order, the ids stay unique. *)
Theorem reachable_unique_ids slot loaded w :
  NoDup (id <$> loaded) →
  reachable slot loaded w → NoDup (id <$> collection (hooks w)).
Proof.
  intros Hl.
  apply (reachable_invariant slot loaded
           (λ w, NoDup (id <$> collection (hooks w)))); [done|].
  intros w1 w2 H [[-> _]|[[r ->]|[i ->]]]%step_store; [done| |].
  - by apply save_NoDup.
  - by apply delete_NoDup.
Qed.

(** X23. The persisted slot is never out of step with the collection:
    either nothing was saved or deleted yet, and both are as they were
    when the component was mounted, or the slot holds the serialization of
    the current collection.  No other event writes either of them. *)
Theorem reachable_slot_consistent slot loaded w :
  reachable slot loaded w →
  (collection (hooks w) = loaded ∧ horology_collection (hooks w) = slot) ∨
  horology_collection (hooks w)
  = Some (JSON_stringify (collection (hooks w))).
Proof.
  apply (reachable_invariant slot loaded
           (λ w, (collection (hooks w) = loaded
                  ∧ horology_collection (hooks w) = slot) ∨
                 horology_collection (hooks w)
                 = Some (JSON_stringify (collection (hooks w)))));
    [by left|].
  intros w1 w2 H [[-> ->]|[[r ->]|[i ->]]]%step_store; [done| |by right].
  unfold handleSaveToCollection. destruct (existsb _ _); [done|by right].
Qed.

(** *** Images *)





End EventLoopFacts.

Section EventLoopExamples.

Import Gemini Vision App Render EventLoop ReportView Samples MoreSamples.

Local Abbreviation reachable :=
  (reachable JSON_parse_samples stringify_ids parseFloat_50000).

(** One file is chosen and read. *)
Lemma awaiting_identification_reachable :
  reachable None [] awaiting_identification.
Proof.
  unfold EventLoop.reachable.
  eapply rtc_l; [apply (step_choose _ _ _ (Some [Blob []]))|]. simpl.
  eapply rtc_l; [by apply (step_files_read _ _ _ [Blob []] [url_a] [] [])|].
  apply rtc_refl.
Qed.

(** With two saved reports, one is deleted. *)
Lemma after_delete_reachable :
  reachable None [report_of "a"; report_of "b"]
    (on (handleDeleteFromCollection stringify_ids (js "a"))
        (mounted None [report_of "a"; report_of "b"])).
Proof.
  unfold EventLoop.reachable. eapply rtc_l; [apply step_delete|]. apply rtc_refl.
Qed.



(** The identification of an uploaded image fails. *)
Lemma identification_failed_reachable :
  reachable None []
    {| hooks := analyzeImage_then (Some [url_a])
                  (Throws {| message := VISION_ERROR_MESSAGE |})
                  (hooks awaiting_identification);
       pendings := [] |}.
Proof.
  unfold EventLoop.reachable. eapply rtc_r.
  - exact awaiting_identification_reachable.
  - by apply (step_identify_failed _ _ _ [url_a] [] []).
Qed.

Lemma reachable_error_is_fixed_witness :
  let s := analyzeImage_then (Some [url_a])
             (Throws {| message := VISION_ERROR_MESSAGE |})
             (hooks awaiting_identification) in
  fixed_error s ∧
  ∀ msg, ErrorPanel msg ∈ main s →
         msg = Some VISION_ERROR_MESSAGE ∨ msg = Some MARKET_ERROR_MESSAGE.
Proof.
  apply (reachable_error_is_fixed JSON_parse_samples stringify_ids
           parseFloat_50000 None []
           {| hooks := analyzeImage_then (Some [url_a])
                         (Throws {| message := VISION_ERROR_MESSAGE |})
                         (hooks awaiting_identification);
              pendings := [] |}).
  exact identification_failed_reachable.
Defined.

Lemma reachable_unique_ids_witness :
  NoDup (id <$> collection
           (hooks (on (handleDeleteFromCollection stringify_ids (js "a"))
                      (mounted None [report_of "a"; report_of "b"])))).
Proof.
  apply (reachable_unique_ids JSON_parse_samples stringify_ids parseFloat_50000
           None [report_of "a"; report_of "b"]).
  - apply (bool_decide_unpack _). vm_compute. exact I.
  - exact after_delete_reachable.
Defined.

Lemma reachable_slot_consistent_witness :
  let w := on (handleDeleteFromCollection stringify_ids (js "a"))
              (mounted None [report_of "a"; report_of "b"]) in
  (collection (hooks w) = [report_of "a"; report_of "b"]
   ∧ horology_collection (hooks w) = None) ∨
  horology_collection (hooks w) = Some (stringify_ids (collection (hooks w))).
Proof.
  apply (reachable_slot_consistent JSON_parse_samples stringify_ids
           parseFloat_50000 None [report_of "a"; report_of "b"]).
  exact after_delete_reachable.
Defined.



End EventLoopExamples.

(** ** The certificate *)

Section CertificateFacts.

Import Gemini App ReportView Samples.

(** X26. Two reports whose ids have at least six code units get the same
    export file name exactly when they have the same brand and their ids
    agree on the first six code units: the rest of the id plays no part,
    so two reports of one brand can export under one name. *)
Theorem export_name_collisions r1 r2 ext :
  6 ≤ length (id r1) → 6 ≤ length (id r2) →
  (download_name r1 ext = download_name r2 ext ↔
   brand (Types.identity r1) = brand (Types.identity r2) ∧
   take 6 (id r1) = take 6 (id r2)).
Proof.
  intros H1 H2. unfold download_name. split.
  - intros H. apply app_inv_head in H. rewrite !(assoc _ _ (js "-")) in H.
    rewrite !(assoc (++) (_ ++ _)) in H.
    apply app_inj_2 in H as [H _]; [|done].
    apply app_inj_2 in H as [H Ht]; [|rewrite !length_take; lia].
    split; [|done]. by apply app_inj_2 in H as [H _].
  - by intros [-> ->].
Qed.



Lemma export_name_collisions_witness :
  download_name (report_of "123456-a") (js ".jpg")
  = download_name (report_of "123456-b") (js ".jpg") ↔
  brand (Types.identity (report_of "123456-a"))
  = brand (Types.identity (report_of "123456-b")) ∧
  take 6 (id (report_of "123456-a")) = take 6 (id (report_of "123456-b")).
Proof.
  apply (export_name_collisions (report_of "123456-a") (report_of "123456-b")
           (js ".jpg")); vm_compute; lia.
Defined.

Example export_names_collide :
  id (report_of "123456-a") ≠ id (report_of "123456-b") ∧
  jpg_name (report_of "123456-a") = jpg_name (report_of "123456-b") ∧
  pdf_name (report_of "123456-a") = pdf_name (report_of "123456-b").
Proof. repeat split. discriminate. Qed.

End CertificateFacts.
